(** * Movie_APPs: catalog access and favorites persistence

    A shallow embedding of the behavioural core of
    [Project-Individu-Movie-Apps/index.tsx]: the catalog wrappers
    ([fetchMovies], [fetchMovieRecommendations], [handleSearch]) and the
    favorites provider ([saveFavorites], [loadFavorites], [addFavorite],
    [removeFavorite], [isFavorite]).

    Modelling decisions.
    - An [async] function is a computation in the monad [M]: it threads the
      [World] (network, device storage, console, React state) and completes
      either normally or by throwing, which is how a promise settles.  Every
      [await] runs to completion before the next statement.
    - The platform is modelled, not assumed: [axios.get] reads the
      [network] of the world, [AsyncStorage] works on a key-value [Device]
      that may refuse a read or a write, and [JSON] is an executable writer
      and reader of JSON text.
    - Run-time values that come out of [JSON.parse] or out of an axios
      response are [json] documents; [jsval] adds [undefined].
    - A [Movie] is the record of the TypeScript interface.  [id] and
      [vote_count] are integers ([Z]); [vote_average] and [popularity] are
      [number]s: NaN, an infinity, or a finite value written as a decimal.
      A decimal past the largest double stands for the infinity it rounds
      to; rounding to 53 bits and underflow are not modelled.
    - A [string] holds the bytes of the text. *)

From Stdlib Require Import ZArith Ascii String DecimalString DecimalZ DecimalN DecimalFacts.
From stdpp Require Import base option list gmap strings.

Open Scope string_scope.
Open Scope Z_scope.

(** ** JavaScript values *)

(** A number: the decimal [significand * 10 ^ exponent], an infinity, or
    NaN. *)
Inductive number :=
  | Number (significand exponent : Z)
  | Infinity (negative : bool)
  | NaN.

Definition number_of_Z (z : Z) : number := Number z 0.

(** The integer a number denotes, when it denotes one. *)
Definition number_to_Z (n : number) : option Z :=
  match n with
  | Number significand exponent =>
      if 0 <=? exponent then Some (significand * 10 ^ exponent)
      else if significand mod 10 ^ (- exponent) =? 0
           then Some (significand / 10 ^ (- exponent))
           else None
  | _ => None
  end.

(** Magnitudes from [2^1024 - 2^970] on round to an infinity: that is the
    midpoint between the largest double and [2^1024]. *)
Definition overflow_threshold : Z := 2 ^ 1024 - 2 ^ 970.

Definition overflows (significand exponent : Z) : bool :=
  if 0 <=? exponent
  then overflow_threshold <=? Z.abs significand * 10 ^ exponent
  else overflow_threshold * 10 ^ (- exponent) <=? Z.abs significand.

(** [Number.isFinite]. *)
Definition finite (n : number) : bool :=
  match n with
  | Number significand exponent => negb (overflows significand exponent)
  | _ => false
  end.

#[local] Unset Elimination Schemes.
Inductive json :=
  | JNull
  | JBool (b : bool)
  | JNum (n : number)
  | JStr (s : string)
  | JArr (elements : list json)
  | JObj (members : list (string * json)).
#[local] Set Elimination Schemes.

Inductive jsval :=
  | undefined
  | defined (j : json).

Coercion defined : json >-> jsval.

(** Errors that the platform raises. *)
Inductive exn :=
  | NetworkError (message : string)
  | StorageError (message : string)
  | TypeError (message : string)
  | SyntaxError (message : string).

(** How an expression evaluation or a promise ends. *)
Inductive completion (A : Type) :=
  | Normal (a : A)
  | Throw (e : exn).
Arguments Normal {A} a.
Arguments Throw {A} e.

(** The last binding of a key wins, as in an object literal. *)
Fixpoint own_property (members : list (string * json)) (key : string) : jsval :=
  match members with
  | [] => undefined
  | (k, v) :: rest =>
      match own_property rest key with
      | undefined => if String.eqb k key then defined v else undefined
      | found => found
      end
  end.

(** [v.results]: reading a property of [undefined] or [null] throws,
    an object answers with its own property, every other value has none. *)
Definition dot_results (v : jsval) : completion jsval :=
  match v with
  | undefined => Throw (TypeError "Cannot read properties of undefined")
  | defined JNull => Throw (TypeError "Cannot read properties of null")
  | defined (JObj members) => Normal (own_property members "results")
  | defined _ => Normal undefined
  end.

(** Truthiness of a [string | null]: [null] and the empty string are falsy. *)
Definition truthy (v : option string) : bool :=
  match v with
  | None => false
  | Some s => negb (String.eqb s "")
  end.

(** ** The Movie interface *)

Record Movie := {
  id : Z;
  title : string;
  overview : string;
  poster_path : string;
  backdrop_path : string;
  vote_average : number;
  popularity : number;
  original_language : string;
  release_date : string;
  vote_count : Z
}.

(** The object a [Movie] is at run time. *)
Definition Movie_to_json (m : Movie) : json :=
  JObj [ ("id", JNum (number_of_Z (id m)));
         ("title", JStr (title m));
         ("overview", JStr (overview m));
         ("poster_path", JStr (poster_path m));
         ("backdrop_path", JStr (backdrop_path m));
         ("vote_average", JNum (vote_average m));
         ("popularity", JNum (popularity m));
         ("original_language", JStr (original_language m));
         ("release_date", JStr (release_date m));
         ("vote_count", JNum (number_of_Z (vote_count m))) ].

Definition Movies_to_json (ms : list Movie) : json :=
  JArr (Movie_to_json <$> ms).

Definition as_number (v : jsval) : option number :=
  match v with defined (JNum n) => Some n | _ => None end.

Definition as_integer (v : jsval) : option Z :=
  n ← as_number v; number_to_Z n.

Definition as_string (v : jsval) : option string :=
  match v with defined (JStr s) => Some s | _ => None end.

Definition field (j : json) (key : string) : jsval :=
  match j with
  | JObj members => own_property members key
  | _ => undefined
  end.

(** Reading a run-time object through the [Movie] interface. *)
Definition as_Movie (j : json) : option Movie :=
  i ← as_integer (field j "id");
  t ← as_string (field j "title");
  o ← as_string (field j "overview");
  pp ← as_string (field j "poster_path");
  bp ← as_string (field j "backdrop_path");
  va ← as_number (field j "vote_average");
  po ← as_number (field j "popularity");
  ol ← as_string (field j "original_language");
  rd ← as_string (field j "release_date");
  vc ← as_integer (field j "vote_count");
  Some {| id := i; title := t; overview := o; poster_path := pp;
          backdrop_path := bp; vote_average := va; popularity := po;
          original_language := ol; release_date := rd; vote_count := vc |}.

Definition as_Movies (v : jsval) : option (list Movie) :=
  match v with
  | defined (JArr elements) => mapM as_Movie elements
  | _ => None
  end.

(** ** JSON text

    [JSON.stringify] and [JSON.parse] of the platform, on [json] documents.
    A finite number is written as the significand followed, when the
    exponent is not zero, by [e] and the exponent: a JSON number with the
    same value as the engine's shortest form ([75e-1] for [7.5]); a number
    that is not finite is written [null].  The parser accepts the whole
    JSON grammar, white space included; a number past the largest double
    is read as an infinity; a [\u] escape yields the code unit in its byte
    encoding. *)
Module JSON.

Definition dquote : ascii := "034"%char.
Definition backslash : ascii := "\"%char.

Definition hex_digit (n : N) : ascii :=
  match String.get (N.to_nat n) "0123456789abcdef" with
  | Some c => c
  | None => "0"%char
  end.

(** QuoteJSONString, one code unit at a time. *)
Definition escape (c : ascii) : string :=
  match c with
  | "034"%char => "\" +:+ String dquote ""
  | "\"%char => "\\"
  | "008"%char => "\b"
  | "012"%char => "\f"
  | "010"%char => "\n"
  | "013"%char => "\r"
  | "009"%char => "\t"
  | _ =>
      if (N_of_ascii c <? 32)%N
      then "\u00" +:+ String (hex_digit (N_of_ascii c / 16)) (String (hex_digit (N_of_ascii c mod 16)) "")
      else String c ""
  end.

Fixpoint escape_all (s : string) : string :=
  match s with
  | "" => ""
  | String c rest => escape c +:+ escape_all rest
  end.

Definition quote (s : string) : string :=
  String dquote (escape_all s +:+ String dquote "").

Definition Z_to_string (z : Z) : string :=
  NilZero.string_of_int (Z.to_int z).

(** [Number.prototype.toString]. *)
Definition number_to_string (n : number) : string :=
  match n with
  | Number significand exponent =>
      Z_to_string significand +:+
      (if exponent =? 0 then "" else "e" +:+ Z_to_string exponent)
  | Infinity false => "Infinity"
  | Infinity true => "-Infinity"
  | NaN => "NaN"
  end.

Fixpoint stringify (j : json) : string :=
  match j with
  | JNull => "null"
  | JBool true => "true"
  | JBool false => "false"
  | JNum n => if finite n then number_to_string n else "null"
  | JStr s => quote s
  | JArr elements =>
      "[" +:+
      (fix list_of (vs : list json) : string :=
         match vs with
         | [] => ""
         | v :: vs' =>
             stringify v +:+
             match vs' with [] => "" | _ => "," +:+ list_of vs' end
         end) elements +:+ "]"
  | JObj members =>
      "{" +:+
      (fix list_of (ms : list (string * json)) : string :=
         match ms with
         | [] => ""
         | (k, v) :: ms' =>
             quote k +:+ ":" +:+ stringify v +:+
             match ms' with [] => "" | _ => "," +:+ list_of ms' end
         end) members +:+ "}"
  end.

(** The document the text of [j] denotes: [j] with [null] for every
    number that is not finite. *)
Fixpoint written (j : json) : json :=
  match j with
  | JNum n => if finite n then JNum n else JNull
  | JArr elements => JArr (written <$> elements)
  | JObj members => JObj ((λ '(k, v), (k, written v)) <$> members)
  | _ => j
  end.

(** The text between the brackets of an array, and between the braces
    of an object. *)
Fixpoint join_elements (vs : list json) : string :=
  match vs with
  | [] => ""
  | v :: vs' =>
      stringify v +:+ match vs' with [] => "" | _ => "," +:+ join_elements vs' end
  end.

Fixpoint join_members (ms : list (string * json)) : string :=
  match ms with
  | [] => ""
  | (k, v) :: ms' =>
      quote k +:+ ":" +:+ stringify v +:+
      match ms' with [] => "" | _ => "," +:+ join_members ms' end
  end.

(** *** Reading *)

Definition is_ws (c : ascii) : bool :=
  match c with
  | " "%char | "009"%char | "010"%char | "013"%char => true
  | _ => false
  end.

Fixpoint skip_ws (s : string) : string :=
  match s with
  | String c rest => if is_ws c then skip_ws rest else s
  | "" => ""
  end.

Definition digit (c : ascii) : option (Decimal.uint → Decimal.uint) :=
  match c with
  | "0"%char => Some Decimal.D0 | "1"%char => Some Decimal.D1
  | "2"%char => Some Decimal.D2 | "3"%char => Some Decimal.D3
  | "4"%char => Some Decimal.D4 | "5"%char => Some Decimal.D5
  | "6"%char => Some Decimal.D6 | "7"%char => Some Decimal.D7
  | "8"%char => Some Decimal.D8 | "9"%char => Some Decimal.D9
  | _ => None
  end.

(** The longest run of digits at the head of [s], and what follows it. *)
Fixpoint take_digits (s : string) : Decimal.uint * string :=
  match s with
  | String c rest =>
      match digit c with
      | Some d => let '(u, rest') := take_digits rest in (d u, rest')
      | None => (Decimal.Nil, s)
      end
  | "" => (Decimal.Nil, "")
  end.

(** [0] alone or a run that starts with a non-zero digit. *)
Definition int_part_ok (u : Decimal.uint) : bool :=
  match u with
  | Decimal.Nil => false
  | Decimal.D0 Decimal.Nil => true
  | Decimal.D0 _ => false
  | _ => true
  end.

Definition signed (negative : bool) (u : Decimal.uint) : Z :=
  Z.of_int (if negative then Decimal.Neg u else Decimal.Pos u).

Definition fraction (s : string) : option (Decimal.uint * string) :=
  match s with
  | String "."%char rest =>
      match take_digits rest with
      | (Decimal.Nil, _) => None
      | (f, rest') => Some (f, rest')
      end
  | _ => Some (Decimal.Nil, s)
  end.

(** A sign in front of digits: [-], or [+] where the grammar allows it. *)
Definition sign (plus_allowed : bool) (s : string) : bool * string :=
  match s with
  | String "-"%char rest => (true, rest)
  | String "+"%char rest => if plus_allowed then (false, rest) else (false, s)
  | _ => (false, s)
  end.

Definition exponent_part (s : string) : option (Z * string) :=
  match s with
  | String ("e"%char | "E"%char) rest =>
      let '(negative, rest1) := sign true rest in
      match take_digits rest1 with
      | (Decimal.Nil, _) => None
      | (d, rest2) => Some (signed negative d, rest2)
      end
  | _ => Some (0, s)
  end.

Definition number_of (s : string) : option (number * string) :=
  let '(negative, s1) := sign false s in
  let '(ip, s2) := take_digits s1 in
  if int_part_ok ip then
    '(fp, s3) ← fraction s2;
    '(ex, s4) ← exponent_part s3;
    let significand := signed negative (Decimal.app ip fp) in
    let exponent := ex - Z.of_nat (Decimal.nb_digits fp) in
    Some (if overflows significand exponent then Infinity negative
          else Number significand exponent, s4)
  else None.

Definition hex_value (c : ascii) : option N :=
  let n := N_of_ascii c in
  if ((48 <=? n) && (n <=? 57))%N then Some (n - 48)%N
  else if ((97 <=? n) && (n <=? 102))%N then Some (n - 87)%N
  else if ((65 <=? n) && (n <=? 70))%N then Some (n - 55)%N
  else None.

Definition hex4 (a b c d : ascii) : option N :=
  x ← hex_value a; y ← hex_value b; z ← hex_value c; w ← hex_value d;
  Some (((x * 16 + y) * 16 + z) * 16 + w)%N.

(** The bytes of one 16-bit code unit. *)
Definition code_unit (n : N) : string :=
  if (n <? 128)%N then String (ascii_of_N n) ""
  else if (n <? 2048)%N then
    String (ascii_of_N (192 + n / 64)) (String (ascii_of_N (128 + n mod 64)) "")
  else
    String (ascii_of_N (224 + n / 4096))
      (String (ascii_of_N (128 + (n / 64) mod 64))
         (String (ascii_of_N (128 + n mod 64)) "")).

(** The character a two-character escape stands for. *)
Definition unescape (e : ascii) : option ascii :=
  match e with
  | "034"%char => Some dquote
  | "\"%char => Some backslash
  | "/"%char => Some "/"%char
  | "b"%char => Some "008"%char
  | "f"%char => Some "012"%char
  | "n"%char => Some "010"%char
  | "r"%char => Some "013"%char
  | "t"%char => Some "009"%char
  | _ => None
  end.

(** A string after its opening quote: the text up to the closing quote,
    escapes resolved, and what follows the closing quote. *)
Fixpoint string_body (s : string) : option (string * string) :=
  match s with
  | "" => None
  | String c rest =>
      if Ascii.eqb c dquote then Some ("", rest)
      else if Ascii.eqb c backslash then
        match rest with
        | String e rest' =>
            if Ascii.eqb e "u"%char then
              match rest' with
              | String h1 (String h2 (String h3 (String h4 rest''))) =>
                  n ← hex4 h1 h2 h3 h4;
                  '(body, r) ← string_body rest'';
                  Some (code_unit n +:+ body, r)
              | _ => None
              end
            else
              c' ← unescape e;
              '(body, r) ← string_body rest';
              Some (String c' body, r)
        | "" => None
        end
      else if (N_of_ascii c <? 32)%N then None
      else '(body, r) ← string_body rest; Some (String c body, r)
  end.

Fixpoint strip_prefix (word s : string) : option string :=
  match word with
  | "" => Some s
  | String c word' =>
      match s with
      | String c' s' => if Ascii.eqb c c' then strip_prefix word' s' else None
      | "" => None
      end
  end.

Definition literal (word : string) (v : json) (s : string) : option (json * string) :=
  rest ← strip_prefix word s; Some (v, rest).

Fixpoint value (fuel : nat) (s : string) : option (json * string) :=
  match fuel with
  | O => None
  | S fuel =>
      match skip_ws s with
      | String "n"%char _ as s' => literal "null" JNull s'
      | String "t"%char _ as s' => literal "true" (JBool true) s'
      | String "f"%char _ as s' => literal "false" (JBool false) s'
      | String "034"%char rest =>
          '(str, rest') ← string_body rest; Some (JStr str, rest')
      | String "["%char rest =>
          match skip_ws rest with
          | String "]"%char rest' => Some (JArr [], rest')
          | _ => '(vs, rest') ← array_elements fuel rest; Some (JArr vs, rest')
          end
      | String "{"%char rest =>
          match skip_ws rest with
          | String "}"%char rest' => Some (JObj [], rest')
          | _ => '(ms, rest') ← object_members fuel rest; Some (JObj ms, rest')
          end
      | s' => '(n, rest) ← number_of s'; Some (JNum n, rest)
      end
  end
with array_elements (fuel : nat) (s : string) : option (list json * string) :=
  match fuel with
  | O => None
  | S fuel =>
      '(v, rest) ← value fuel s;
      match skip_ws rest with
      | String ","%char rest' =>
          '(vs, rest'') ← array_elements fuel rest'; Some (v :: vs, rest'')
      | String "]"%char rest' => Some ([v], rest')
      | _ => None
      end
  end
with object_members (fuel : nat) (s : string) : option (list (string * json) * string) :=
  match fuel with
  | O => None
  | S fuel =>
      match skip_ws s with
      | String "034"%char rest =>
          '(key, rest1) ← string_body rest;
          match skip_ws rest1 with
          | String ":"%char rest2 =>
              '(v, rest3) ← value fuel rest2;
              match skip_ws rest3 with
              | String ","%char rest4 =>
                  '(ms, rest5) ← object_members fuel rest4;
                  Some ((key, v) :: ms, rest5)
              | String "}"%char rest4 => Some ([(key, v)], rest4)
              | _ => None
              end
          | _ => None
          end
      | _ => None
      end
  end.

Definition parse (text : string) : completion json :=
  match value (S (String.length text)) text with
  | Some (v, rest) =>
      match skip_ws rest with
      | "" => Normal v
      | _ => Throw (SyntaxError "Unexpected non-whitespace character after JSON")
      end
  | None => Throw (SyntaxError "Unexpected token or end of JSON input")
  end.

End JSON.

(** ** The world an async function runs in *)

(** The device store behind AsyncStorage: its slots, and whether the device
    currently serves reads and writes. *)
Record Device := {
  slots : gmap string string;
  readable : bool;
  writable : bool
}.

Record World := {
  network : string → completion jsval;    (* what a GET of a URL settles with *)
  device : Device;
  console_errors : list (string * exn);   (* console.error calls, oldest first *)
  favorites_state : list Movie;           (* useState of FavoritesProvider *)
  results_state : jsval                   (* useState of SearchScreen *)
}.

Definition with_device (d : Device) (w : World) : World :=
  {| network := network w; device := d; console_errors := console_errors w;
     favorites_state := favorites_state w; results_state := results_state w |}.

Definition with_console (c : list (string * exn)) (w : World) : World :=
  {| network := network w; device := device w; console_errors := c;
     favorites_state := favorites_state w; results_state := results_state w |}.

Definition with_favorites (f : list Movie) (w : World) : World :=
  {| network := network w; device := device w; console_errors := console_errors w;
     favorites_state := f; results_state := results_state w |}.

Definition with_results (r : jsval) (w : World) : World :=
  {| network := network w; device := device w; console_errors := console_errors w;
     favorites_state := favorites_state w; results_state := r |}.

(** Computations that read and write the world and may throw. *)
Definition M (A : Type) : Type := World → completion A * World.

#[export] Instance M_ret : MRet M := λ A a w, (Normal a, w).

#[export] Instance M_bind : MBind M := λ A B f m w,
  match m w with
  | (Normal a, w') => f a w'
  | (Throw e, w') => (Throw e, w')
  end.

(** [try { body } catch (error) { handler error }] *)
Definition try_catch {A} (body : M A) (handler : exn → M A) : M A := λ w,
  match body w with
  | (Normal a, w') => (Normal a, w')
  | (Throw e, w') => handler e w'
  end.

(** Evaluating an expression that may throw. *)
Definition eval {A} (c : completion A) : M A := λ w, (c, w).

Definition outcome {A} (m : M A) (w : World) : completion A := (m w).1.
Definition after {A} (m : M A) (w : World) : World := (m w).2.

(** The world after one more [console.error]. *)
Definition logged (message : string) (e : exn) (w : World) : World :=
  with_console (console_errors w ++ [(message, e)])%list w.

Module console.
Definition error (message : string) (e : exn) : M unit := λ w,
  (Normal (), logged message e w).
End console.

Record AxiosResponse := { data : jsval }.

Module axios.
(** [axios.get(url)]: rejects, or resolves with the response. *)
Definition get (url : string) : M AxiosResponse := λ w,
  match network w url with
  | Normal d => (Normal {| data := d |}, w)
  | Throw e => (Throw e, w)
  end.
End axios.

Module AsyncStorage.
Definition getItem (key : string) : M (option string) := λ w,
  if readable (device w)
  then (Normal (slots (device w) !! key), w)
  else (Throw (StorageError "Failed to read"), w).

Definition setItem (key value : string) : M unit := λ w,
  if writable (device w)
  then (Normal (),
        with_device {| slots := <[key := value]> (slots (device w));
                       readable := readable (device w);
                       writable := writable (device w) |} w)
  else (Throw (StorageError "Failed to write"), w).
End AsyncStorage.

Definition setFavorites (newFavorites : list Movie) : M unit := λ w,
  (Normal (), with_favorites newFavorites w).

Definition setResults (r : jsval) : M unit := λ w,
  (Normal (), with_results r w).

(** ** index.tsx *)

Definition API_KEY : string := "f5817ca812a95ce0e0ab07166bfc9fe5".
Definition BASE_URL : string := "https://api.themoviedb.org/3/movie".
Definition SEARCH_URL : string := "https://api.themoviedb.org/3/search/movie".

Definition empty_array : jsval := defined (JArr []).

(** The three request URLs, as the template literals build them. *)
Definition movies_url (endpoint : string) : string :=
  BASE_URL +:+ "/" +:+ endpoint +:+ "?api_key=" +:+ API_KEY +:+ "&language=en-US&page=1".

Definition recommendations_url (movieId : Z) : string :=
  BASE_URL +:+ "/" +:+ JSON.Z_to_string movieId +:+ "/recommendations?api_key=" +:+ API_KEY
    +:+ "&language=en-US&page=1".

Definition search_url (query : string) : string :=
  SEARCH_URL +:+ "?api_key=" +:+ API_KEY +:+ "&query=" +:+ query.

Definition fetchMovies (endpoint : string) : M jsval :=
  try_catch
    (response ← axios.get (movies_url endpoint);
     eval (dot_results (data response)))
    (λ error,
       console.error "Error fetching movies:" error;;
       mret empty_array).

Definition fetchMovieRecommendations (movieId : Z) : M jsval :=
  try_catch
    (response ← axios.get (recommendations_url movieId);
     eval (dot_results (data response)))
    (λ error,
       console.error "Error fetching recommendations:" error;;
       mret empty_array).

(** The four listings of the home screen ([fetchAllMovies]). *)
Inductive Category := now_playing | popular | top_rated | upcoming.

Definition endpoint_of (c : Category) : string :=
  match c with
  | now_playing => "now_playing"
  | popular => "popular"
  | top_rated => "top_rated"
  | upcoming => "upcoming"
  end.

Definition saveFavorites (favorites : list Movie) : M unit :=
  try_catch
    (let jsonValue := JSON.stringify (Movies_to_json favorites) in
     AsyncStorage.setItem "@favorites" jsonValue)
    (λ error, console.error "Error saving favorites:" error).

Definition loadFavorites : M jsval :=
  try_catch
    (jsonValue ← AsyncStorage.getItem "@favorites";
     match jsonValue with
     | Some text =>
         if truthy jsonValue
         then j ← eval (JSON.parse text); mret (defined j)
         else mret empty_array
     | None => mret empty_array
     end)
    (λ error,
       console.error "Error loading favorites:" error;;
       mret empty_array).

(** The handlers close over [favorites], the state of the render that
    created them.  The call of [saveFavorites] is not awaited; it is run to
    its end here, before the handler returns. *)
Definition addFavorite (favorites : list Movie) (movie : Movie) : M unit :=
  let newFavorites := (favorites ++ [movie])%list in
  setFavorites newFavorites;;
  saveFavorites newFavorites.

Definition removeFavorite (favorites : list Movie) (movieId : Z) : M unit :=
  let newFavorites := filter (λ movie, id movie ≠ movieId) favorites in
  setFavorites newFavorites;;
  saveFavorites newFavorites.

Definition isFavorite (favorites : list Movie) (movieId : Z) : bool :=
  existsb (λ movie, id movie =? movieId) favorites.

Definition handleSearch (query : string) : M unit :=
  try_catch
    (response ← axios.get (search_url query);
     r ← eval (dot_results (data response));
     setResults r)
    (λ error, console.error "Error searching movies:" error).

(** The value [FavoritesProvider] hands to its consumers in one render. *)
Module Context.
Record t := {
  favorites : list Movie;
  addFavorite : Movie → M unit;
  removeFavorite : Z → M unit;
  isFavorite : Z → bool
}.
End Context.

Definition FavoritesProvider (w : World) : Context.t :=
  let favorites := favorites_state w in
  {| Context.favorites := favorites;
     Context.addFavorite := addFavorite favorites;
     Context.removeFavorite := removeFavorite favorites;
     Context.isFavorite := isFavorite favorites |}.

(** [useFavorites()] in a render against the current state. *)
Definition useFavorites : M Context.t := λ w, (Normal (FavoritesProvider w), w).

(** ** Vocabulary of the statements *)

(** What may follow a value inside a JSON document: nothing, or one of the
    three separators. *)
Definition delimited (rest : string) : Prop :=
  rest = "" ∨
  ∃ r, rest = String ","%char r ∨ rest = String "]"%char r ∨ rest = String "}"%char r.

(** The request of [url] throws [e] into the caller's [try]: the awaited
    GET rejects with [e], or it resolves with [null] or [undefined] for
    data and reading [results] off it throws [e].  A response whose body
    did not decode arrives as text and throws nothing. *)
Definition request_throws (w : World) (url : string) (e : exn) : Prop :=
  network w url = Throw e ∨
  ∃ d, network w url = Normal d ∧ dot_results d = Throw e.

(** Every number of the movie is finite. *)
Definition finite_numbers (m : Movie) : Prop :=
  finite (number_of_Z (id m)) = true ∧
  finite (vote_average m) = true ∧
  finite (popularity m) = true ∧
  finite (number_of_Z (vote_count m)) = true.

(** ** Reading results through the interface *)

(** Each field of [m] is the property of the same name of the object [r]. *)
Definition field_for_field (r : json) (m : Movie) : Prop :=
  as_integer (field r "id") = Some (id m) ∧
  as_string (field r "title") = Some (title m) ∧
  as_string (field r "overview") = Some (overview m) ∧
  as_string (field r "poster_path") = Some (poster_path m) ∧
  as_string (field r "backdrop_path") = Some (backdrop_path m) ∧
  as_number (field r "vote_average") = Some (vote_average m) ∧
  as_number (field r "popularity") = Some (popularity m) ∧
  as_string (field r "original_language") = Some (original_language m) ∧
  as_string (field r "release_date") = Some (release_date m) ∧
  as_integer (field r "vote_count") = Some (vote_count m).

(** ** Sample data *)

Definition inception : Movie :=
  {| id := 27205; title := "Inception";
     overview := "A thief who steals secrets through dreams.";
     poster_path := "/inception.jpg"; backdrop_path := "/inception-wide.jpg";
     vote_average := Number 84 (-1); popularity := Number 29108 (-3);
     original_language := "en"; release_date := "2010-07-15";
     vote_count := 34495 |}.

Definition arrival : Movie :=
  {| id := 329865; title := "Arrival";
     overview := "A linguist meets visitors.";
     poster_path := "/arrival.jpg"; backdrop_path := "/arrival-wide.jpg";
     vote_average := Number 76 (-1); popularity := Number 42 0;
     original_language := "en"; release_date := "2016-11-10";
     vote_count := 17000 |}.

Definition blank_device : Device :=
  {| slots := ∅; readable := true; writable := true |}.

(** A healthy device whose favorites slot holds [text]. *)
Definition device_holding (text : string) : Device :=
  {| slots := {["@favorites" := text]}; readable := true; writable := true |}.

(** The state of the application before anything has run: every
    [useState] holds its initial empty array and the console is empty. *)
Definition initial (net : string → completion jsval) (d : Device) : World :=
  {| network := net; device := d; console_errors := [];
     favorites_state := []; results_state := empty_array |}.

Definition offline : string → completion jsval :=
  λ _, Throw (NetworkError "Network Error").

(** A catalog that answers one search and the popular listing, and fails
    every other request. *)
Definition catalog_page (ms : list Movie) : jsval :=
  defined (JObj [("page", JNum (number_of_Z 1)); ("results", Movies_to_json ms)]).

Definition flaky : string → completion jsval :=
  λ url,
    if String.eqb url (search_url "inception") then Normal (catalog_page [inception])
    else if String.eqb url (movies_url "popular") then Normal (catalog_page [inception; arrival])
    else Throw (NetworkError "Network Error").

(** ** The screens

    A screen instance keeps its [useState] cells in a [state] record of its
    own; a handler of the screen takes the cells of the render it belongs
    to and returns them as its setters leave them. *)

(** [keyExtractor] of every list: [item.id.toString()]. *)
Definition keyExtractor (item : Movie) : string := JSON.Z_to_string (id item).

Module HomeScreen.

Record state := {
  nowPlaying : jsval;
  popular : jsval;
  topRated : jsval;
  upcoming : jsval
}.

Definition initial_state : state :=
  {| nowPlaying := empty_array; popular := empty_array;
     topRated := empty_array; upcoming := empty_array |}.

Definition setNowPlaying (v : jsval) (s : state) : state :=
  {| nowPlaying := v; popular := popular s; topRated := topRated s; upcoming := upcoming s |}.

Definition setPopular (v : jsval) (s : state) : state :=
  {| nowPlaying := nowPlaying s; popular := v; topRated := topRated s; upcoming := upcoming s |}.

Definition setTopRated (v : jsval) (s : state) : state :=
  {| nowPlaying := nowPlaying s; popular := popular s; topRated := v; upcoming := upcoming s |}.

Definition setUpcoming (v : jsval) (s : state) : state :=
  {| nowPlaying := nowPlaying s; popular := popular s; topRated := topRated s; upcoming := v |}.

Definition fetchAllMovies (s : state) : M state :=
  v ← fetchMovies "now_playing"; let s := setNowPlaying v s in
  v ← fetchMovies "popular"; let s := setPopular v s in
  v ← fetchMovies "top_rated"; let s := setTopRated v s in
  v ← fetchMovies "upcoming"; let s := setUpcoming v s in
  mret s.

End HomeScreen.

Module DetailScreen.

Record state := {
  isInFavorites : bool;
  recommendations : jsval
}.

Definition initial_state : state :=
  {| isInFavorites := false; recommendations := empty_array |}.

Definition setIsInFavorites (b : bool) (s : state) : state :=
  {| isInFavorites := b; recommendations := recommendations s |}.

Definition setRecommendations (v : jsval) (s : state) : state :=
  {| isInFavorites := isInFavorites s; recommendations := v |}.

Definition fetchRecommendations (movie : Movie) (s : state) : M state :=
  recommendations ← fetchMovieRecommendations (id movie);
  mret (setRecommendations recommendations s).

(** The effect of the first render; the animation is left out.  The call
    of [fetchRecommendations] is not awaited; it is run to its end here. *)
Definition effect (ctx : Context.t) (movie : Movie) (s : state) : M state :=
  let s := setIsInFavorites (Context.isFavorite ctx (id movie)) s in
  fetchRecommendations movie s.

Definition toggleFavorite (ctx : Context.t) (movie : Movie) (s : state) : M state :=
  if isInFavorites s then
    Context.removeFavorite ctx (id movie);;
    mret (setIsInFavorites false s)
  else
    Context.addFavorite ctx movie;;
    mret (setIsInFavorites true s).

(** Opening the screen for [movie], and pressing its favorite button:
    each runs against the context of the render current at that moment. *)
Definition open (movie : Movie) : M state :=
  ctx ← useFavorites; effect ctx movie initial_state.

Definition press (movie : Movie) (s : state) : M state :=
  ctx ← useFavorites; toggleFavorite ctx movie s.

End DetailScreen.

Module FavoritesScreen.

(** The Remove button below a listed favorite. *)
Definition onPressRemove (ctx : Context.t) (item : Movie) : M unit :=
  Context.removeFavorite ctx (id item).

End FavoritesScreen.

(** The ids of a collection, in order. *)
Definition ids (favorites : list Movie) : list Z := id <$> favorites.

(** A movie whose score the catalog sent as [1e400]. *)
Definition unrated : Movie :=
  {| id := 603; title := "The Matrix";
     overview := "A hacker learns what the world is.";
     poster_path := "/matrix.jpg"; backdrop_path := "/matrix-wide.jpg";
     vote_average := Infinity false; popularity := Number 50 0;
     original_language := "en"; release_date := "1999-03-30";
     vote_count := 0 |}.

(** A catalog that answers every request with a body that is no JSON. *)
Definition garbled : string → completion jsval :=
  λ _, Normal (defined (JStr "<html>502 Bad Gateway</html>")).

(** A device that serves reads and refuses writes, holding [text]. *)
Definition full_device (text : string) : Device :=
  {| slots := {["@favorites" := text]}; readable := true; writable := false |}.

(** A catalog whose every answer is an object without [results]. *)
Definition bare : string → completion jsval :=
  λ _, Normal (defined (JObj [("status_message", JStr "Invalid API key")])).

(** * Properties *)

(** ** Running the handlers *)

Lemma outcome_bind {A B} (m : M A) (f : A → M B) (a : A) (w : World) :
  outcome m w = Normal a → outcome (m ≫= f) w = outcome (f a) (after m w).
Proof.
  unfold outcome, after, mbind, M_bind. destruct (m w) as [c w']. simpl.
  by intros ->.
Qed.

Lemma saveFavorites_run (favorites : list Movie) (w : World) :
  saveFavorites favorites w =
    (Normal (),
     if writable (device w)
     then with_device
            {| slots := <["@favorites" := JSON.stringify (Movies_to_json favorites)]>
                          (slots (device w));
               readable := readable (device w);
               writable := writable (device w) |} w
     else logged "Error saving favorites:" (StorageError "Failed to write") w).
Proof.
  unfold saveFavorites, try_catch, AsyncStorage.setItem, console.error.
  by destruct (writable (device w)).
Qed.

Lemma saveFavorites_favorites_state (favorites : list Movie) (w : World) :
  favorites_state (after (saveFavorites favorites) w) = favorites_state w.
Proof.
  unfold after. rewrite saveFavorites_run. simpl.
  by destruct (writable (device w)).
Qed.

Lemma addFavorite_run (favorites : list Movie) (movie : Movie) (w : World) :
  addFavorite favorites movie w =
    saveFavorites (favorites ++ [movie])%list (with_favorites (favorites ++ [movie])%list w).
Proof. reflexivity. Qed.

Lemma removeFavorite_run (favorites : list Movie) (movieId : Z) (w : World) :
  removeFavorite favorites movieId w =
    saveFavorites (filter (λ movie, id movie ≠ movieId) favorites)
      (with_favorites (filter (λ movie, id movie ≠ movieId) favorites) w).
Proof. reflexivity. Qed.

Lemma addFavorite_state (favorites : list Movie) (movie : Movie) (w : World) :
  favorites_state (after (addFavorite favorites movie) w) = (favorites ++ [movie])%list.
Proof.
  unfold after. rewrite addFavorite_run.
  apply (saveFavorites_favorites_state _ (with_favorites _ w)).
Qed.

Lemma removeFavorite_state (favorites : list Movie) (movieId : Z) (w : World) :
  favorites_state (after (removeFavorite favorites movieId) w) =
    filter (λ movie, id movie ≠ movieId) favorites.
Proof.
  unfold after. rewrite removeFavorite_run.
  apply (saveFavorites_favorites_state _ (with_favorites _ w)).
Qed.

Lemma addFavorite_outcome (favorites : list Movie) (movie : Movie) (w : World) :
  outcome (addFavorite favorites movie) w = Normal ().
Proof. unfold outcome. by rewrite addFavorite_run, saveFavorites_run. Qed.

Lemma removeFavorite_outcome (favorites : list Movie) (movieId : Z) (w : World) :
  outcome (removeFavorite favorites movieId) w = Normal ().
Proof. unfold outcome. by rewrite removeFavorite_run, saveFavorites_run. Qed.

Lemma isFavorite_true (favorites : list Movie) (movieId : Z) :
  isFavorite favorites movieId = true ↔ ∃ m, m ∈ favorites ∧ id m = movieId.
Proof.
  unfold isFavorite. rewrite existsb_exists. split.
  - intros (m & Hin & Heq). exists m. split; [by apply list_elem_of_In | lia].
  - intros (m & Hin & Heq). exists m. split; [by apply list_elem_of_In | lia].
Qed.

Lemma isFavorite_false (favorites : list Movie) (movieId : Z) :
  isFavorite favorites movieId = false ↔ Forall (λ m, id m ≠ movieId) favorites.
Proof.
  rewrite Forall_forall. split.
  - intros Hf m Hin Heq.
    assert (isFavorite favorites movieId = true) as Ht by (apply isFavorite_true; eauto).
    congruence.
  - intros Hall. destruct (isFavorite favorites movieId) eqn:E; [|done].
    apply isFavorite_true in E as (m & Hin & Heq). by destruct (Hall m Hin).
Qed.

Lemma filter_other_ids (favorites : list Movie) (movieId : Z) :
  Forall (λ m, id m ≠ movieId) favorites →
  filter (λ movie, id movie ≠ movieId) favorites = favorites.
Proof.
  induction 1 as [|m l Hm Hl IH]; [done|].
  rewrite filter_cons_True by done. by rewrite IH.
Qed.

(** ** The favorites registry *)

(** C3: [addFavorite] puts the movie at the end of the collection it closed
    over, whatever ids that collection holds; adding the same movie again
    from the next render leaves two entries with its id. *)
Theorem C3_add_appends_without_uniqueness_check
    (favorites : list Movie) (movie : Movie) (w : World) :
  let w1 := after (addFavorite favorites movie) w in
  let w2 := after (ctx ← useFavorites; Context.addFavorite ctx movie) w1 in
  favorites_state w1 = (favorites ++ [movie])%list ∧
  favorites_state w2 = (favorites ++ [movie; movie])%list ∧
  (2 ≤ length (filter (λ m, id m = id movie) (favorites_state w2)))%nat.
Proof.
  intros w1 w2.
  assert (favorites_state w1 = (favorites ++ [movie])%list) as H1
    by apply addFavorite_state.
  assert (favorites_state w2 = (favorites ++ [movie; movie])%list) as H2.
  { unfold w2, after, useFavorites, mbind, M_bind, FavoritesProvider. simpl.
    fold (after (addFavorite (favorites_state w1) movie) w1).
    rewrite addFavorite_state, H1, <- (assoc_L (++)%list). done. }
  split; [done|]. split; [done|].
  rewrite H2, filter_app, length_app.
  rewrite !filter_cons_True by done. simpl. lia.
Qed.

(** C4: [removeFavorite] drops every entry with the given id and no other;
    when no entry has the id the collection stays as it is; the handler
    completes normally. *)
Theorem C4_remove_strips_every_match
    (favorites : list Movie) (movieId : Z) (w : World) :
  let favorites' := favorites_state (after (removeFavorite favorites movieId) w) in
  outcome (removeFavorite favorites movieId) w = Normal () ∧
  Forall (λ m, id m ≠ movieId) favorites' ∧
  (∀ m, m ∈ favorites' ↔ m ∈ favorites ∧ id m ≠ movieId) ∧
  (isFavorite favorites movieId = false → favorites' = favorites).
Proof.
  intros favorites'. unfold favorites'. rewrite removeFavorite_state.
  split; [apply removeFavorite_outcome|].
  split.
  { apply Forall_forall. intros m Hin. by apply list_elem_of_filter in Hin as [? _]. }
  split.
  { intros m. rewrite list_elem_of_filter. tauto. }
  intros Hno. apply filter_other_ids. by apply isFavorite_false.
Qed.

Lemma C4_remove_strips_every_match_witness :
  isFavorite [inception; arrival] 603 = false ∧
  favorites_state
    (after (removeFavorite [inception; arrival] 603) (initial offline blank_device))
    = [inception; arrival].
Proof.
  split; [reflexivity|].
  apply (C4_remove_strips_every_match [inception; arrival] 603
           (initial offline blank_device)).
  reflexivity.
Defined.

(** C5: a consumer that reads the context right after [addFavorite] finds
    the movie's id a favorite, and right after [removeFavorite] finds the
    removed id not a favorite; [isFavorite] holds exactly when some entry
    of the collection has the id. *)
Theorem C5_isFavorite_after_add_and_remove
    (favorites : list Movie) (movie : Movie) (movieId : Z) (w : World) :
  outcome (addFavorite favorites movie;;
           ctx ← useFavorites; mret (Context.isFavorite ctx (id movie))) w
    = Normal true ∧
  outcome (removeFavorite favorites movieId;;
           ctx ← useFavorites; mret (Context.isFavorite ctx movieId)) w
    = Normal false ∧
  (isFavorite favorites movieId = true ↔ ∃ m, m ∈ favorites ∧ id m = movieId).
Proof.
  split; [|split; [|apply isFavorite_true]].
  - rewrite (outcome_bind _ _ ()) by apply addFavorite_outcome.
    unfold outcome, useFavorites, mbind, M_bind, mret, M_ret, FavoritesProvider. simpl.
    rewrite addFavorite_state. f_equal.
    apply isFavorite_true. exists movie. split; [|done].
    apply elem_of_app. right. by apply list_elem_of_singleton.
  - rewrite (outcome_bind _ _ ()) by apply removeFavorite_outcome.
    unfold outcome, useFavorites, mbind, M_bind, mret, M_ret, FavoritesProvider. simpl.
    rewrite removeFavorite_state. f_equal.
    apply isFavorite_false, Forall_forall.
    intros m Hin. by apply list_elem_of_filter in Hin as [? _].
Qed.

(** C9: [addFavorite] keeps every existing entry at its index and puts the
    movie at the next one; what [removeFavorite] leaves is a subsequence of
    the collection, so the entries that stay keep their relative order. *)
Theorem C9_insertion_order_preserved
    (favorites : list Movie) (movie : Movie) (movieId : Z) (w : World) :
  let added := favorites_state (after (addFavorite favorites movie) w) in
  let removed := favorites_state (after (removeFavorite favorites movieId) w) in
  take (length favorites) added = favorites ∧
  added !! length favorites = Some movie ∧
  length added = S (length favorites) ∧
  removed `sublist_of` favorites ∧
  removed = filter (λ m, id m ≠ movieId) favorites.
Proof.
  intros added removed. unfold added, removed.
  rewrite addFavorite_state, removeFavorite_state.
  split; [by rewrite take_app_length|].
  split; [by rewrite list_lookup_middle|].
  split; [rewrite length_app; simpl; lia|].
  split; [apply sublist_filter | done].
Qed.

(** C10: adding a movie and then removing its id gives back the collection
    exactly when the collection had no entry with that id. *)
Theorem C10_add_then_remove_fresh_id
    (favorites : list Movie) (movie : Movie) (w : World) :
  let w1 := after (addFavorite favorites movie) w in
  let w2 := after (ctx ← useFavorites; Context.removeFavorite ctx (id movie)) w1 in
  favorites_state w2 = favorites ↔ isFavorite favorites (id movie) = false.
Proof.
  intros w1 w2.
  assert (favorites_state w2 = filter (λ m, id m ≠ id movie) favorites) as ->.
  { unfold w2, after, useFavorites, mbind, M_bind, FavoritesProvider. simpl.
    fold (after (removeFavorite (favorites_state w1) (id movie)) w1).
    rewrite removeFavorite_state. unfold w1. rewrite addFavorite_state.
    rewrite filter_app, filter_cons_False, filter_nil by tauto.
    by rewrite (right_id_L [] (++)%list). }
  split.
  - intros Heq. apply isFavorite_false, Forall_forall. intros m Hin.
    rewrite <- Heq in Hin. by apply list_elem_of_filter in Hin as [? _].
  - intros Hno. apply filter_other_ids. by apply isFavorite_false.
Qed.

(** ** The catalog client *)

Lemma fetchMovies_run (endpoint : string) (w : World) :
  fetchMovies endpoint w =
    match network w (movies_url endpoint) with
    | Normal d =>
        match dot_results d with
        | Normal r => (Normal r, w)
        | Throw e => (Normal empty_array, logged "Error fetching movies:" e w)
        end
    | Throw e => (Normal empty_array, logged "Error fetching movies:" e w)
    end.
Proof.
  unfold fetchMovies, try_catch, mbind, M_bind, axios.get, eval.
  destruct (network w (movies_url endpoint)) as [d|e]; [|done].
  simpl. by destruct (dot_results d).
Qed.

Lemma fetchMovieRecommendations_run (movieId : Z) (w : World) :
  fetchMovieRecommendations movieId w =
    match network w (recommendations_url movieId) with
    | Normal d =>
        match dot_results d with
        | Normal r => (Normal r, w)
        | Throw e => (Normal empty_array, logged "Error fetching recommendations:" e w)
        end
    | Throw e => (Normal empty_array, logged "Error fetching recommendations:" e w)
    end.
Proof.
  unfold fetchMovieRecommendations, try_catch, mbind, M_bind, axios.get, eval.
  destruct (network w (recommendations_url movieId)) as [d|e]; [|done].
  simpl. by destruct (dot_results d).
Qed.

Lemma handleSearch_run (query : string) (w : World) :
  handleSearch query w =
    match network w (search_url query) with
    | Normal d =>
        match dot_results d with
        | Normal r => (Normal (), with_results r w)
        | Throw e => (Normal (), logged "Error searching movies:" e w)
        end
    | Throw e => (Normal (), logged "Error searching movies:" e w)
    end.
Proof.
  unfold handleSearch, try_catch, mbind, M_bind, axios.get, eval.
  destruct (network w (search_url query)) as [d|e]; [|done].
  simpl. by destruct (dot_results d).
Qed.

(** C1, as amended: [handleSearch] never throws and returns nothing.
    When the request throws, the error is logged and the result list is
    left as it was, empty only if it was empty before.  When a response
    arrives, the result list becomes its [results], with nothing logged:
    for a body that arrives as text, [undefined]. *)
Theorem C1_failed_search_leaves_results (w : World) (query : string) :
  outcome (handleSearch query) w = Normal () ∧
  (∀ e, request_throws w (search_url query) e →
        handleSearch query w = (Normal (), logged "Error searching movies:" e w) ∧
        results_state (after (handleSearch query) w) = results_state w) ∧
  (∀ d r, network w (search_url query) = Normal d → dot_results d = Normal r →
          handleSearch query w = (Normal (), with_results r w) ∧
          results_state (after (handleSearch query) w) = r) ∧
  (∀ text, network w (search_url query) = Normal (defined (JStr text)) →
           handleSearch query w = (Normal (), with_results undefined w) ∧
           results_state (after (handleSearch query) w) = undefined).
Proof.
  unfold outcome, after. rewrite handleSearch_run.
  split; [|split; [|split]].
  - destruct (network w (search_url query)) as [d|e]; [|done].
    by destruct (dot_results d).
  - by intros e [-> | (d & -> & ->)].
  - by intros d r -> ->.
  - by intros text ->.
Qed.

Lemma C1_failed_search_leaves_results_witness :
  request_throws (initial offline blank_device) (search_url "inception")
    (NetworkError "Network Error") ∧
  results_state (after (handleSearch "inception") (initial offline blank_device))
    = empty_array ∧
  results_state
    (after (handleSearch "inception")
       (with_results (defined (Movies_to_json [arrival])) (initial garbled blank_device)))
    = undefined.
Proof.
  assert (request_throws (initial offline blank_device) (search_url "inception")
            (NetworkError "Network Error")) as Hfail by (left; reflexivity).
  split; [exact Hfail|].
  split.
  - destruct (C1_failed_search_leaves_results (initial offline blank_device) "inception")
      as (_ & Hthrows & _).
    apply (Hthrows _ Hfail).
  - destruct (C1_failed_search_leaves_results
                (with_results (defined (Movies_to_json [arrival]))
                   (initial garbled blank_device)) "inception")
      as (_ & _ & _ & Htext).
    apply (Htext "<html>502 Bad Gateway</html>"). reflexivity.
Defined.

(** C1, as stated, fails: after a search that succeeded, a search whose
    request fails leaves the earlier results in place, not an empty list. *)
Lemma C1_failed_search_keeps_earlier_results :
  let w1 := after (handleSearch "inception") (initial flaky blank_device) in
  request_throws w1 (search_url "arrival") (NetworkError "Network Error") ∧
  outcome (handleSearch "arrival") w1 = Normal () ∧
  results_state (after (handleSearch "arrival") w1) = defined (Movies_to_json [inception]) ∧
  results_state (after (handleSearch "arrival") w1) ≠ empty_array.
Proof.
  intros w1.
  assert (results_state (after (handleSearch "arrival") w1)
            = defined (Movies_to_json [inception])) as Hkept by (vm_compute; reflexivity).
  split; [left; vm_compute; reflexivity|].
  split; [vm_compute; reflexivity|].
  split; [exact Hkept|].
  rewrite Hkept. discriminate.
Qed.

(** C2, as amended: neither fetch ever throws.  When the request of a
    category listing or of a movie's recommendations throws, the fetch
    returns the empty array and logs the error.  When a response arrives,
    the fetch returns its [results] as it is, with nothing logged: for a
    body that arrives as text, [undefined]. *)
Theorem C2_catalog_fetch_fail_soft (w : World) (c : Category) (movieId : Z) :
  (∀ e, request_throws w (movies_url (endpoint_of c)) e →
        fetchMovies (endpoint_of c) w
          = (Normal empty_array, logged "Error fetching movies:" e w)) ∧
  (∀ e, request_throws w (recommendations_url movieId) e →
        fetchMovieRecommendations movieId w
          = (Normal empty_array, logged "Error fetching recommendations:" e w)) ∧
  (∀ d r, network w (movies_url (endpoint_of c)) = Normal d → dot_results d = Normal r →
          fetchMovies (endpoint_of c) w = (Normal r, w)) ∧
  (∀ d r, network w (recommendations_url movieId) = Normal d → dot_results d = Normal r →
          fetchMovieRecommendations movieId w = (Normal r, w)) ∧
  (∀ text, network w (movies_url (endpoint_of c)) = Normal (defined (JStr text)) →
           fetchMovies (endpoint_of c) w = (Normal undefined, w)) ∧
  (∀ text, network w (recommendations_url movieId) = Normal (defined (JStr text)) →
           fetchMovieRecommendations movieId w = (Normal undefined, w)) ∧
  (∃ v, outcome (fetchMovies (endpoint_of c)) w = Normal v) ∧
  (∃ v, outcome (fetchMovieRecommendations movieId) w = Normal v).
Proof.
  unfold outcome. rewrite fetchMovies_run, fetchMovieRecommendations_run.
  repeat split.
  - by intros e [-> | (d & -> & ->)].
  - by intros e [-> | (d & -> & ->)].
  - by intros d r -> ->.
  - by intros d r -> ->.
  - by intros text ->.
  - by intros text ->.
  - destruct (network w (movies_url (endpoint_of c))) as [d|e]; [|by eexists].
    destruct (dot_results d); by eexists.
  - destruct (network w (recommendations_url movieId)) as [d|e]; [|by eexists].
    destruct (dot_results d); by eexists.
Qed.

Lemma C2_catalog_fetch_fail_soft_witness :
  outcome (fetchMovies (endpoint_of top_rated)) (initial offline blank_device)
    = Normal empty_array ∧
  outcome (fetchMovieRecommendations 27205) (initial offline blank_device)
    = Normal empty_array ∧
  outcome (fetchMovies (endpoint_of popular)) (initial flaky blank_device)
    = Normal (defined (Movies_to_json [inception; arrival])).
Proof.
  pose proof (C2_catalog_fetch_fail_soft (initial offline blank_device) top_rated 27205)
    as (Hmovies & Hrecs & _).
  pose proof (C2_catalog_fetch_fail_soft (initial flaky blank_device) popular 27205)
    as (_ & _ & Hanswer & _).
  unfold outcome. split; [|split].
  - rewrite (Hmovies (NetworkError "Network Error")); [reflexivity | left; reflexivity].
  - rewrite (Hrecs (NetworkError "Network Error")); [reflexivity | left; reflexivity].
  - rewrite (Hanswer (catalog_page [inception; arrival])
               (defined (Movies_to_json [inception; arrival])) eq_refl eq_refl).
    reflexivity.
Defined.

(** C2, as stated, fails: on a response whose body did not decode and
    arrives as text, both fetches return [undefined], which is no empty
    sequence, and log nothing. *)
Lemma C2_undecoded_body_gives_undefined :
  let w := initial garbled blank_device in
  network w (movies_url (endpoint_of popular))
    = Normal (defined (JStr "<html>502 Bad Gateway</html>")) ∧
  network w (recommendations_url 27205)
    = Normal (defined (JStr "<html>502 Bad Gateway</html>")) ∧
  fetchMovies (endpoint_of popular) w = (Normal undefined, w) ∧
  fetchMovieRecommendations 27205 w = (Normal undefined, w) ∧
  console_errors (after (fetchMovies (endpoint_of popular)) w) = [] ∧
  console_errors (after (fetchMovieRecommendations 27205) w) = [] ∧
  outcome (fetchMovies (endpoint_of popular)) w ≠ Normal empty_array ∧
  outcome (fetchMovieRecommendations 27205) w ≠ Normal empty_array.
Proof.
  intros w.
  assert (fetchMovies (endpoint_of popular) w = (Normal undefined, w)) as Hmovies
    by (by rewrite fetchMovies_run).
  assert (fetchMovieRecommendations 27205 w = (Normal undefined, w)) as Hrecs
    by (by rewrite fetchMovieRecommendations_run).
  unfold outcome, after. rewrite Hmovies, Hrecs.
  repeat split; discriminate.
Qed.

Lemma as_Movie_field_for_field (r : json) (m : Movie) :
  as_Movie r = Some m → field_for_field r m.
Proof.
  unfold as_Movie. intros H. simplify_option_eq.
  unfold field_for_field. simpl. by repeat split.
Qed.

Lemma as_Movie_to_json (m : Movie) : as_Movie (Movie_to_json m) = Some m.
Proof.
  destruct m. unfold as_Movie. cbn.
  unfold as_integer, number_to_Z. cbn.
  by rewrite !Z.mul_1_r.
Qed.

Lemma as_Movies_to_json (ms : list Movie) :
  as_Movies (defined (Movies_to_json ms)) = Some ms.
Proof.
  unfold as_Movies, Movies_to_json. apply mapM_Some.
  induction ms as [|m ms IH]; constructor; [apply as_Movie_to_json | done].
Qed.

(** C8: on a response whose [results] is an array of movie objects,
    [fetchMovies] returns that very array: as many elements as [results]
    has, each read through the [Movie] interface field for field. *)
Theorem C8_fetch_returns_results_field_for_field
    (w : World) (c : Category) (members : list (string * json))
    (rs : list json) (ms : list Movie) :
  network w (movies_url (endpoint_of c)) = Normal (defined (JObj members)) →
  own_property members "results" = defined (JArr rs) →
  mapM as_Movie rs = Some ms →
  fetchMovies (endpoint_of c) w = (Normal (defined (JArr rs)), w) ∧
  as_Movies (defined (JArr rs)) = Some ms ∧
  length ms = length rs ∧
  Forall2 field_for_field rs ms.
Proof.
  intros Hnet Hresults Hmovies.
  rewrite fetchMovies_run, Hnet. simpl. rewrite Hresults.
  split; [done|]. split; [done|].
  apply mapM_Some in Hmovies.
  split; [symmetry; by eapply Forall2_length|].
  eapply Forall2_impl; [exact Hmovies|].
  intros r m. apply as_Movie_field_for_field.
Qed.

Lemma C8_fetch_returns_results_field_for_field_witness :
  outcome (fetchMovies "popular") (initial flaky blank_device)
    = Normal (defined (Movies_to_json [inception; arrival])) ∧
  Forall2 field_for_field [Movie_to_json inception; Movie_to_json arrival]
    [inception; arrival].
Proof.
  pose proof (C8_fetch_returns_results_field_for_field
                (initial flaky blank_device) popular
                [("page", JNum (number_of_Z 1));
                 ("results", Movies_to_json [inception; arrival])]
                [Movie_to_json inception; Movie_to_json arrival]
                [inception; arrival]
                eq_refl eq_refl eq_refl) as (Hrun & _ & _ & Hfields).
  split; [|exact Hfields].
  unfold outcome. simpl endpoint_of in Hrun. rewrite Hrun. reflexivity.
Defined.

(** ** JSON text round trip *)

#[local] Arguments String.append !_ _ / : simpl nomatch.
#[local] Arguments overflows : simpl never.

Lemma append_assoc (a b c : string) : (a +:+ b) +:+ c = a +:+ (b +:+ c).
Proof. induction a as [|x a IH]; simpl; [done | by rewrite IH]. Qed.

Lemma append_nil_r (a : string) : a +:+ "" = a.
Proof. induction a as [|x a IH]; simpl; [done | by rewrite IH]. Qed.

Lemma length_append (a b : string) :
  String.length (a +:+ b) = (String.length a + String.length b)%nat.
Proof. induction a as [|x a IH]; simpl; [done | by rewrite IH]. Qed.

Ltac delimited_cases H :=
  destruct H as [-> | (? & [-> | [-> | ->]])].

Lemma take_digits_string_of_uint (u : Decimal.uint) (rest : string) :
  (match rest with String c _ => JSON.digit c = None | "" => True end) →
  JSON.take_digits (NilEmpty.string_of_uint u +:+ rest) = (u, rest).
Proof.
  intros Hstop. induction u as [|u IH|u IH|u IH|u IH|u IH|u IH|u IH|u IH|u IH|u IH];
    simpl; try (rewrite IH; reflexivity).
  destruct rest as [|c r]; [done|]. simpl. by rewrite Hstop.
Qed.

Lemma to_uint_int_part_ok (p : positive) : JSON.int_part_ok (Pos.to_uint p) = true.
Proof.
  pose proof (DecimalPos.Unsigned.to_uint_nonnil p) as Hnil.
  pose proof (DecimalPos.Unsigned.to_uint_nonzero p) as Hzero.
  assert (Decimal.unorm (Pos.to_uint p) = Pos.to_uint p) as Hnorm.
  { rewrite <- DecimalPos.Unsigned.to_of, DecimalPos.Unsigned.of_to. reflexivity. }
  destruct (Pos.to_uint p) as [|u| | | | | | | | | ] eqn:E; try done.
  rewrite unorm_D0 in Hnorm.
  destruct u; try done; exfalso.
  all: unfold Decimal.unorm in Hnorm;
       match type of Hnorm with
       | match Decimal.nzhead ?d with _ => _ end = _ =>
           pose proof (nzhead_nonzero d) as Hnz; destruct (Decimal.nzhead d); congruence
       end.
Qed.

(** The text of an integer: an optional minus and the digits of its
    magnitude, which the reader takes back to the integer. *)
Lemma Z_to_string_shape (z : Z) :
  ∃ u, JSON.Z_to_string z = (if z <? 0 then "-" else "") +:+ NilEmpty.string_of_uint u ∧
       JSON.int_part_ok u = true ∧
       JSON.signed (z <? 0) u = z.
Proof.
  destruct z as [|p|p].
  - exists (Decimal.D0 Decimal.Nil). done.
  - exists (Pos.to_uint p). unfold JSON.Z_to_string. simpl.
    split; [|split; [apply to_uint_int_part_ok | apply (DecimalZ.of_to (Z.pos p))]].
    pose proof (DecimalPos.Unsigned.to_uint_nonnil p). by destruct (Pos.to_uint p).
  - exists (Pos.to_uint p). unfold JSON.Z_to_string. simpl.
    split; [|split; [apply to_uint_int_part_ok | apply (DecimalZ.of_to (Z.neg p))]].
    pose proof (DecimalPos.Unsigned.to_uint_nonnil p). by destruct (Pos.to_uint p).
Qed.

Lemma sign_digits (plus_allowed : bool) (u : Decimal.uint) (rest : string) :
  JSON.int_part_ok u = true →
  JSON.sign plus_allowed (NilEmpty.string_of_uint u +:+ rest)
    = (false, NilEmpty.string_of_uint u +:+ rest).
Proof. by destruct u. Qed.

Lemma take_signed_digits (plus_allowed : bool) (z : Z) (rest : string) :
  (match rest with String c _ => JSON.digit c = None | "" => True end) →
  ∃ u negative rest1,
    JSON.sign plus_allowed (JSON.Z_to_string z +:+ rest) = (negative, rest1) ∧
    JSON.take_digits rest1 = (u, rest) ∧
    JSON.int_part_ok u = true ∧
    JSON.signed negative u = z.
Proof.
  intros Hstop. destruct (Z_to_string_shape z) as (u & -> & Hok & Hval).
  exists u, (z <? 0), (NilEmpty.string_of_uint u +:+ rest).
  split.
  { destruct (z <? 0); [done|]. simpl. by apply sign_digits. }
  split; [by apply take_digits_string_of_uint | done].
Qed.


Lemma number_of_to_string (n : number) (rest : string) :
  finite n = true →
  delimited rest →
  JSON.number_of (JSON.number_to_string n +:+ rest) = Some (n, rest).
Proof.
  intros Hfinite Hrest. destruct n as [s e| |]; try discriminate Hfinite.
  simpl in Hfinite. apply negb_true_iff in Hfinite.
  unfold JSON.number_to_string.
  rewrite append_assoc.
  set (tail := (if e =? 0 then "" else "e" +:+ JSON.Z_to_string e) +:+ rest).
  assert (match tail with String c _ => JSON.digit c = None | "" => True end) as Hstop.
  { unfold tail. destruct (e =? 0); [|done]. simpl. by delimited_cases Hrest. }
  destruct (take_signed_digits false s tail Hstop)
    as (u & neg & rest1 & Hsign & Hdigits & Hok & Hval).
  unfold JSON.number_of. rewrite Hsign, Hdigits, Hok.
  assert (JSON.fraction tail = Some (Decimal.Nil, tail)) as ->.
  { unfold tail. destruct (e =? 0); [|done]. simpl. by delimited_cases Hrest. }
  simpl. rewrite DecimalFacts.app_nil_r, Hval.
  unfold tail. destruct (e =? 0) eqn:He.
  - apply Z.eqb_eq in He as ->. simpl.
    assert (JSON.exponent_part rest = Some (0, rest)) as -> by by delimited_cases Hrest.
    simpl. change (Z.of_nat 0) with 0. by rewrite Z.sub_0_r, Hfinite.
  - assert (match rest with String c _ => JSON.digit c = None | "" => True end) as Hstop'
      by by delimited_cases Hrest.
    destruct (take_signed_digits true e rest Hstop')
      as (u' & neg' & rest1' & Hsign' & Hdigits' & Hok' & Hval').
    simpl. rewrite Hsign', Hdigits'.
    destruct u'; try done; simpl; change (Z.of_nat 0) with 0;
      rewrite Hval', Z.sub_0_r; by rewrite Hfinite.
Qed.

Ltac escape_case :=
  lazymatch goal with
  | |- (JSON.escape ?c = _ ∧ _) ∨ _ =>
      let e := eval vm_compute in (JSON.escape c) in
      lazymatch e with
      | String _ EmptyString => left
      | String _ (String ?x EmptyString) => right; left; exists x
      | String _ (String _ (String _ (String _ (String ?h1 (String ?h2 EmptyString))))) =>
          right; right; exists h1, h2
      end;
      vm_compute; repeat split; reflexivity
  end.

(** How [escape] writes a code unit, in the terms of the reader. *)
Lemma escape_shape (c : ascii) :
  (JSON.escape c = String c "" ∧ Ascii.eqb c JSON.dquote = false ∧
     Ascii.eqb c JSON.backslash = false ∧ (N_of_ascii c <? 32)%N = false) ∨
  (∃ e, JSON.escape c = String JSON.backslash (String e "") ∧
     Ascii.eqb e "u"%char = false ∧ JSON.unescape e = Some c) ∨
  (∃ h1 h2, JSON.escape c
              = String JSON.backslash (String "u" (String "0" (String "0" (String h1 (String h2 ""))))) ∧
     JSON.hex4 "0" "0" h1 h2 = Some (N_of_ascii c) ∧
     JSON.code_unit (N_of_ascii c) = String c "").
Proof. destruct c as [[] [] [] [] [] [] [] []]; escape_case. Qed.

Lemma string_body_escape (c : ascii) (tail body rest : string) :
  JSON.string_body tail = Some (body, rest) →
  JSON.string_body (JSON.escape c +:+ tail) = Some (String c body, rest).
Proof.
  intros H.
  destruct (escape_shape c) as [(-> & Hq & Hb & Hc) | [(e & -> & Hu & He) | (h1 & h2 & -> & Hhex & Hcode)]].
  - simpl. rewrite Hq, Hb, Hc, H. done.
  - simpl. rewrite Hu, He. simpl. rewrite H. done.
  - simpl. rewrite Hhex. simpl. rewrite H. simpl. rewrite Hcode. done.
Qed.

Lemma string_body_escape_all (s rest : string) :
  JSON.string_body (JSON.escape_all s +:+ String JSON.dquote rest) = Some (s, rest).
Proof.
  induction s as [|c s IH]; [done|].
  simpl JSON.escape_all. rewrite append_assoc. by apply string_body_escape.
Qed.

Lemma stringify_array (vs : list json) :
  JSON.stringify (JArr vs) = "[" +:+ JSON.join_elements vs +:+ "]".
Proof. reflexivity. Qed.

Lemma stringify_object (ms : list (string * json)) :
  JSON.stringify (JObj ms) = "{" +:+ JSON.join_members ms +:+ "}".
Proof. reflexivity. Qed.

Lemma value_unfold (fuel : nat) (s : string) :
  JSON.value (S fuel) s =
    match JSON.skip_ws s with
    | String "n"%char _ as s' => JSON.literal "null" JNull s'
    | String "t"%char _ as s' => JSON.literal "true" (JBool true) s'
    | String "f"%char _ as s' => JSON.literal "false" (JBool false) s'
    | String "034"%char rest =>
        '(str, rest') ← JSON.string_body rest; Some (JStr str, rest')
    | String "["%char rest =>
        match JSON.skip_ws rest with
        | String "]"%char rest' => Some (JArr [], rest')
        | _ => '(vs, rest') ← JSON.array_elements fuel rest; Some (JArr vs, rest')
        end
    | String "{"%char rest =>
        match JSON.skip_ws rest with
        | String "}"%char rest' => Some (JObj [], rest')
        | _ => '(ms, rest') ← JSON.object_members fuel rest; Some (JObj ms, rest')
        end
    | s' => '(n, rest) ← JSON.number_of s'; Some (JNum n, rest)
    end.
Proof. reflexivity. Qed.

(** An integer's text starts with a minus or a digit. *)
Lemma value_number (fuel : nat) (z : Z) (tail : string) :
  JSON.value (S fuel) (JSON.Z_to_string z +:+ tail) =
    '(n, rest) ← JSON.number_of (JSON.Z_to_string z +:+ tail); Some (JNum n, rest).
Proof.
  rewrite value_unfold.
  destruct (Z_to_string_shape z) as (u & -> & Hok & _).
  destruct (z <? 0); [reflexivity|].
  destruct u; try discriminate Hok; reflexivity.
Qed.

Lemma stringify_head (j : json) (tail : string) :
  ∃ c r, JSON.stringify j +:+ tail = String c r ∧
         JSON.is_ws c = false ∧ c ≠ "]"%char ∧ c ≠ "}"%char.
Proof.
  destruct j as [|[]|n| | |].
  1-3, 5-7: by do 2 eexists.
  unfold JSON.stringify.
  destruct (finite n) eqn:Hfinite; [|by do 2 eexists].
  destruct n as [s e| |]; try discriminate Hfinite.
  unfold JSON.number_to_string.
  destruct (Z_to_string_shape s) as (u & -> & Hok & _).
  destruct (s <? 0); [by do 2 eexists|].
  destruct u; try discriminate Hok; by do 2 eexists.
Qed.

Lemma length_stringify_pos (j : json) : (1 ≤ String.length (JSON.stringify j))%nat.
Proof.
  destruct (stringify_head j "") as (c & r & H & _).
  rewrite append_nil_r in H. rewrite H. simpl. lia.
Qed.

Lemma delimited_skip_ws (rest : string) : delimited rest → JSON.skip_ws rest = rest.
Proof. intros H. by delimited_cases H. Qed.

Lemma array_elements_unfold (fuel : nat) (s : string) :
  JSON.array_elements (S fuel) s =
    '(v, rest) ← JSON.value fuel s;
    match JSON.skip_ws rest with
    | String ","%char rest' =>
        '(vs, rest'') ← JSON.array_elements fuel rest'; Some (v :: vs, rest'')
    | String "]"%char rest' => Some ([v], rest')
    | _ => None
    end.
Proof. reflexivity. Qed.

Lemma object_members_unfold (fuel : nat) (s : string) :
  JSON.object_members (S fuel) s =
    match JSON.skip_ws s with
    | String "034"%char rest =>
        '(key, rest1) ← JSON.string_body rest;
        match JSON.skip_ws rest1 with
        | String ":"%char rest2 =>
            '(v, rest3) ← JSON.value fuel rest2;
            match JSON.skip_ws rest3 with
            | String ","%char rest4 =>
                '(ms, rest5) ← JSON.object_members fuel rest4;
                Some ((key, v) :: ms, rest5)
            | String "}"%char rest4 => Some ([(key, v)], rest4)
            | _ => None
            end
        | _ => None
        end
    | _ => None
    end.
Proof. reflexivity. Qed.

Lemma skip_ws_stringify (j : json) (tail : string) :
  JSON.skip_ws (JSON.stringify j +:+ tail) = JSON.stringify j +:+ tail.
Proof.
  destruct (stringify_head j tail) as (c & r & -> & Hws & _). simpl. by rewrite Hws.
Qed.

Lemma length_stringify_array (vs : list json) :
  String.length (JSON.stringify (JArr vs)) = S (S (String.length (JSON.join_elements vs))).
Proof. rewrite stringify_array. simpl. rewrite length_append. simpl. lia. Qed.

Lemma length_stringify_object (ms : list (string * json)) :
  String.length (JSON.stringify (JObj ms)) = S (S (String.length (JSON.join_members ms))).
Proof. rewrite stringify_object. simpl. rewrite length_append. simpl. lia. Qed.

Lemma join_elements_head (v : json) (vs : list json) (tail : string) :
  ∃ c r, JSON.join_elements (v :: vs) +:+ tail = String c r ∧
         JSON.is_ws c = false ∧ c ≠ "]"%char.
Proof.
  change (JSON.join_elements (v :: vs))
    with (JSON.stringify v +:+
            match vs with [] => "" | _ => "," +:+ JSON.join_elements vs end).
  rewrite append_assoc.
  destruct (stringify_head v
              ((match vs with [] => "" | _ => "," +:+ JSON.join_elements vs end) +:+ tail))
    as (c & r & H & Hws & Hclose & _).
  by exists c, r.
Qed.

Lemma join_members_shape (k : string) (v : json) (ms : list (string * json)) (tail : string) :
  JSON.join_members ((k, v) :: ms) +:+ tail =
    String JSON.dquote
      (JSON.escape_all k +:+
         String JSON.dquote
           (String ":"
              (JSON.stringify v +:+
                 (match ms with [] => "" | _ => "," +:+ JSON.join_members ms end +:+ tail)))).
Proof.
  change (JSON.join_members ((k, v) :: ms))
    with (JSON.quote k +:+ ":" +:+ JSON.stringify v +:+
            match ms with [] => "" | _ => "," +:+ JSON.join_members ms end).
  unfold JSON.quote. rewrite !append_assoc.
  change (String JSON.dquote ?x +:+ ?y) with (String JSON.dquote (x +:+ y)).
  rewrite !append_assoc. reflexivity.
Qed.

Lemma length_join_members (k : string) (v : json) (ms : list (string * json)) :
  String.length (JSON.join_members ((k, v) :: ms)) =
    (3 + String.length (JSON.escape_all k) + String.length (JSON.stringify v) +
     String.length (match ms with [] => "" | _ => "," +:+ JSON.join_members ms end))%nat.
Proof.
  rewrite <- (append_nil_r (JSON.join_members ((k, v) :: ms))).
  rewrite join_members_shape. simpl String.length.
  rewrite length_append. simpl String.length.
  rewrite length_append, append_nil_r. lia.
Qed.

(** The reader takes back what the writer wrote, with [null] where a
    number was not finite, given fuel for the length of the text: values,
    the elements of an array up to its closing bracket, the members of an
    object up to its closing brace. *)
Lemma value_stringify_fuel (fuel : nat) :
  (∀ j rest, delimited rest → (String.length (JSON.stringify j) ≤ fuel)%nat →
     JSON.value fuel (JSON.stringify j +:+ rest) = Some (JSON.written j, rest)) ∧
  (∀ v vs rest, (String.length (JSON.join_elements (v :: vs)) < fuel)%nat →
     JSON.array_elements fuel (JSON.join_elements (v :: vs) +:+ String "]" rest)
       = Some (JSON.written <$> v :: vs, rest)) ∧
  (∀ k v ms rest, (String.length (JSON.join_members ((k, v) :: ms)) < fuel)%nat →
     JSON.object_members fuel (JSON.join_members ((k, v) :: ms) +:+ String "}" rest)
       = Some ((λ '(k, v), (k, JSON.written v)) <$> (k, v) :: ms, rest)).
Proof.
  induction fuel as [|fuel (IHvalue & IHelements & IHmembers)].
  { split; [|split; intros; lia].
    intros j rest _ Hlen. pose proof (length_stringify_pos j). lia. }
  split; [|split].
  - (* a value *)
    intros j rest Hrest Hlen. destruct j as [|[]|n|s|vs|ms].
    + reflexivity.
    + reflexivity.
    + reflexivity.
    + simpl JSON.stringify. simpl JSON.written.
      destruct (finite n) eqn:Hfinite; [|reflexivity].
      destruct n as [s e| |]; try discriminate Hfinite.
      unfold JSON.number_to_string. rewrite append_assoc.
      rewrite value_number. rewrite <- append_assoc.
      fold (JSON.number_to_string (Number s e)). by rewrite number_of_to_string.
    + rewrite value_unfold. simpl.
      rewrite append_assoc. simpl. by rewrite string_body_escape_all.
    + rewrite length_stringify_array in Hlen.
      rewrite stringify_array, value_unfold. simpl.
      destruct vs as [|v vs]; [reflexivity|].
      rewrite append_assoc. change ("]" +:+ rest) with (String "]" rest).
      rewrite IHelements by lia.
      destruct (join_elements_head v vs (String "]" rest)) as (c & r & -> & Hws & Hclose).
      simpl. rewrite Hws.
      destruct c as [[] [] [] [] [] [] [] []]; try reflexivity. by destruct Hclose.
    + rewrite length_stringify_object in Hlen.
      rewrite stringify_object, value_unfold. simpl.
      destruct ms as [|[k v] ms]; [reflexivity|].
      rewrite append_assoc. change ("}" +:+ rest) with (String "}" rest).
      by rewrite IHmembers by lia.
  - (* the elements of an array *)
    intros v vs rest Hlen. rewrite array_elements_unfold.
    change (JSON.join_elements (v :: vs))
      with (JSON.stringify v +:+
              match vs with [] => "" | _ => "," +:+ JSON.join_elements vs end) in *.
    rewrite append_assoc. rewrite length_append in Hlen.
    destruct vs as [|v' vs].
    + change ("" +:+ String "]" rest) with (String "]" rest).
      rewrite IHvalue; [done| right; eexists; eauto | lia].
    + rewrite append_assoc.
      change ("," +:+ ?x) with (String "," x) in *.
      change (String.length (String "," ?x)) with (S (String.length x)) in Hlen.
      rewrite IHvalue; [| right; eexists; eauto | lia].
      cbn -[JSON.join_elements JSON.array_elements]. rewrite IHelements; [done | lia].
  - (* the members of an object *)
    intros k v ms rest Hlen. rewrite object_members_unfold.
    rewrite length_join_members in Hlen. rewrite join_members_shape.
    change (JSON.skip_ws (String JSON.dquote ?x)) with (String JSON.dquote x).
    cbv iota. unfold JSON.dquote at 1. cbv iota.
    rewrite string_body_escape_all.
    cbn -[JSON.join_members JSON.value JSON.stringify].
    destruct ms as [|[k' v'] ms].
    + change ("" +:+ String "}" rest) with (String "}" rest).
      rewrite IHvalue; [done| right; eexists; eauto | lia].
    + change (String "," ?x +:+ ?y) with (String "," (x +:+ y)).
      change (String.length ("," +:+ ?x)) with (S (String.length x)) in Hlen.
      rewrite IHvalue; [| right; eexists; eauto | lia].
      cbn -[JSON.join_members JSON.object_members]. rewrite IHmembers; [done | lia].
Qed.

(** [JSON.parse] reads the text of a document back as the document, with
    [null] where a number was not finite. *)
Lemma JSON_parse_stringify (j : json) :
  JSON.parse (JSON.stringify j) = Normal (JSON.written j).
Proof.
  unfold JSON.parse.
  destruct (value_stringify_fuel (S (String.length (JSON.stringify j)))) as (Hvalue & _).
  rewrite <- (append_nil_r (JSON.stringify j)) at 2.
  rewrite Hvalue; [done | by left | lia].
Qed.

Lemma stringify_truthy (j : json) : truthy (Some (JSON.stringify j)) = true.
Proof.
  destruct (stringify_head j "") as (c & r & H & _).
  rewrite append_nil_r in H. by rewrite H.
Qed.

(** ** The favorites store *)

Lemma loadFavorites_run (w : World) :
  loadFavorites w =
    if readable (device w) then
      match slots (device w) !! "@favorites" with
      | Some text =>
          if truthy (Some text) then
            match JSON.parse text with
            | Normal j => (Normal (defined j), w)
            | Throw e => (Normal empty_array, logged "Error loading favorites:" e w)
            end
          else (Normal empty_array, w)
      | None => (Normal empty_array, w)
      end
    else (Normal empty_array,
          logged "Error loading favorites:" (StorageError "Failed to read") w).
Proof.
  unfold loadFavorites, try_catch, mbind, M_bind, AsyncStorage.getItem, eval.
  destruct (readable (device w)); [|done].
  destruct (slots (device w) !! "@favorites") as [text|]; [|done].
  destruct (truthy (Some text)); [|done].
  by destruct (JSON.parse text).
Qed.

Lemma written_Movie_to_json (m : Movie) :
  finite_numbers m → JSON.written (Movie_to_json m) = Movie_to_json m.
Proof.
  intros (Hid & Haverage & Hpopularity & Hcount).
  unfold Movie_to_json. cbn [JSON.written fmap list_fmap].
  by rewrite Hid, Haverage, Hpopularity, Hcount.
Qed.

Lemma written_Movies_to_json (ms : list Movie) :
  Forall finite_numbers ms → JSON.written (Movies_to_json ms) = Movies_to_json ms.
Proof.
  intros Hall. unfold Movies_to_json. cbn [JSON.written]. f_equal.
  induction Hall as [|m ms Hm Hms IH]; [done|].
  rewrite !fmap_cons, IH. f_equal. by apply written_Movie_to_json.
Qed.


Lemma finite_numbers_inception : finite_numbers inception.
Proof. by repeat split. Qed.

Lemma finite_numbers_arrival : finite_numbers arrival.
Proof. by repeat split. Qed.



(** C7, as amended: [loadFavorites] returns the empty array when the slot
    is absent or holds the empty string, when the read fails, and when the
    slot holds text that is not JSON; text that is JSON is returned as
    parsed, whatever it denotes; no case throws. *)
Theorem C7_load_fail_soft (w : World) :
  (slots (device w) !! "@favorites" = None →
     outcome loadFavorites w = Normal empty_array) ∧
  (∀ text e, slots (device w) !! "@favorites" = Some text →
     JSON.parse text = Throw e → outcome loadFavorites w = Normal empty_array) ∧
  (slots (device w) !! "@favorites" = Some "" →
     outcome loadFavorites w = Normal empty_array) ∧
  (readable (device w) = false → outcome loadFavorites w = Normal empty_array) ∧
  (∀ text j, readable (device w) = true →
     slots (device w) !! "@favorites" = Some text → text ≠ "" →
     JSON.parse text = Normal j → outcome loadFavorites w = Normal (defined j)) ∧
  (∃ v, outcome loadFavorites w = Normal v).
Proof.
  unfold outcome. rewrite loadFavorites_run.
  repeat split.
  - intros ->. by destruct (readable (device w)).
  - intros text e -> ->. destruct (readable (device w)); [|done].
    by destruct (truthy (Some text)).
  - intros ->. by destruct (readable (device w)).
  - by intros ->.
  - intros text j -> -> Hne ->.
    assert (truthy (Some text) = true) as ->; [|done].
    simpl. apply negb_true_iff, String.eqb_neq. done.
  - destruct (readable (device w)); [|by eexists].
    destruct (slots (device w) !! "@favorites") as [text|]; [|by eexists].
    destruct (truthy (Some text)); [|by eexists].
    destruct (JSON.parse text); by eexists.
Qed.

Lemma C7_load_fail_soft_witness :
  JSON.parse "[{"
    = Throw (SyntaxError "Unexpected token or end of JSON input") ∧
  outcome loadFavorites (initial offline (device_holding "[{")) = Normal empty_array ∧
  outcome loadFavorites (initial offline blank_device) = Normal empty_array.
Proof.
  split; [reflexivity|]. split.
  - destruct (C7_load_fail_soft (initial offline (device_holding "[{")))
      as (_ & Hgarbled & _).
    apply (Hgarbled "[{" (SyntaxError "Unexpected token or end of JSON input"));
      reflexivity.
  - destruct (C7_load_fail_soft (initial offline blank_device)) as (Habsent & _).
    apply Habsent. reflexivity.
Defined.

(** C7, as stated, fails: a slot holding the JSON text of an empty object,
    which is no movie list, is returned as that object, not as an empty
    array. *)
Lemma C7_valid_json_that_is_no_movie_list :
  outcome loadFavorites (initial offline (device_holding "{}")) = Normal (defined (JObj [])) ∧
  as_Movies (defined (JObj [])) = None ∧
  defined (JObj []) ≠ empty_array.
Proof. split; [reflexivity|]. split; [reflexivity|]. discriminate. Qed.

(** * Further properties *)

(** ** More on running the handlers *)

Lemma useFavorites_bind {A} (k : Context.t → M A) (w : World) :
  (ctx ← useFavorites; k ctx) w = k (FavoritesProvider w) w.
Proof. reflexivity. Qed.

Lemma isFavorite_app (l1 l2 : list Movie) (x : Z) :
  isFavorite (l1 ++ l2) x = isFavorite l1 x || isFavorite l2 x.
Proof. apply existsb_app. Qed.

Lemma isFavorite_filter (l : list Movie) (movieId x : Z) :
  isFavorite (filter (λ m, id m ≠ movieId) l) x = isFavorite l x && negb (movieId =? x).
Proof.
  apply Bool.eq_iff_eq_true.
  rewrite andb_true_iff, negb_true_iff, Z.eqb_neq, !isFavorite_true. split.
  - intros (m & Hin & Heq). apply list_elem_of_filter in Hin as [Hne Hin].
    split; [by exists m | congruence].
  - intros [(m & Hin & Heq) Hne]. exists m. split; [|done].
    apply list_elem_of_filter. split; [congruence | done].
Qed.

Lemma ids_filter_sublist (l : list Movie) (movieId : Z) :
  ids (filter (λ m, id m ≠ movieId) l) `sublist_of` ids l.
Proof.
  induction l as [|a l IH]; [done|].
  rewrite filter_cons. destruct (decide (id a ≠ movieId)).
  - by apply sublist_skip.
  - by apply sublist_cons.
Qed.

Lemma isFavorite_false_ids (l : list Movie) (x : Z) :
  isFavorite l x = false ↔ x ∉ ids l.
Proof.
  rewrite isFavorite_false, Forall_forall. unfold ids. split.
  - intros H Hin. apply list_elem_of_fmap in Hin as (m & -> & Hm). by apply (H m).
  - intros H m Hm Heq. apply H. apply list_elem_of_fmap. by exists m.
Qed.

Lemma unique_ids_same_entry (l : list Movie) (a b : Movie) :
  NoDup (ids l) → a ∈ l → b ∈ l → id a = id b → a = b.
Proof.
  induction l as [|c l IH]; intros Hnd Ha Hb Heq; [by apply not_elem_of_nil in Ha|].
  unfold ids in Hnd. rewrite fmap_cons in Hnd. apply NoDup_cons in Hnd as [Hc Hnd].
  apply elem_of_cons in Ha as [->|Ha]; apply elem_of_cons in Hb as [->|Hb]; try done.
  - destruct Hc. rewrite Heq. apply list_elem_of_fmap. by exists b.
  - destruct Hc. rewrite <- Heq. apply list_elem_of_fmap. by exists a.
  - by apply IH.
Qed.

(** With unique ids, dropping the id of a listed entry drops that entry
    alone. *)
Lemma filter_listed_unique (l : list Movie) (item : Movie) :
  NoDup (ids l) → item ∈ l →
  S (length (filter (λ m, id m ≠ id item) l)) = length l ∧
  ∀ m, m ∈ filter (λ m, id m ≠ id item) l ↔ m ∈ l ∧ m ≠ item.
Proof.
  intros Hnd Hin. split.
  - induction l as [|c l IH]; [by apply not_elem_of_nil in Hin|].
    unfold ids in Hnd. rewrite fmap_cons in Hnd. apply NoDup_cons in Hnd as [Hc Hnd].
    rewrite filter_cons. destruct (decide (id c ≠ id item)) as [Hne|Heq].
    + apply elem_of_cons in Hin as [->|Hin]; [done|].
      simpl. f_equal. by apply IH.
    + apply dec_stable in Heq. simpl. f_equal.
      rewrite filter_other_ids; [done|].
      apply isFavorite_false, isFavorite_false_ids. by rewrite <- Heq.
  - intros m. rewrite list_elem_of_filter. split.
    + intros [Hne Hm]. split; [done|]. by intros ->.
    + intros [Hm Hne]. split; [|done].
      intros Heq. apply Hne. by apply (unique_ids_same_entry l).
Qed.

(** ** The favorites registry, further *)

(** X1: removing an id a second time, from the next render, changes
    nothing. *)
Theorem X1_remove_again_changes_nothing
    (favorites : list Movie) (movieId : Z) (w : World) :
  let w1 := after (removeFavorite favorites movieId) w in
  let w2 := after (ctx ← useFavorites; Context.removeFavorite ctx movieId) w1 in
  favorites_state w2 = favorites_state w1.
Proof.
  intros w1 w2. unfold w2, after. rewrite useFavorites_bind.
  change (favorites_state (after (removeFavorite (favorites_state w1) movieId) w1)
          = favorites_state w1).
  rewrite removeFavorite_state. apply filter_other_ids.
  unfold w1. rewrite removeFavorite_state.
  apply Forall_forall. intros m Hin. by apply list_elem_of_filter in Hin as [? _].
Qed.

(** X2: a mutation changes the favorite status of its own id only: after
    [addFavorite] an id is a favorite if it was one or is the added
    movie's, after [removeFavorite] if it was one and is not the removed
    id. *)
Theorem X2_mutation_touches_its_own_id_only
    (favorites : list Movie) (movie : Movie) (movieId other : Z) (w : World) :
  isFavorite (favorites_state (after (addFavorite favorites movie) w)) other
    = isFavorite favorites other || (id movie =? other) ∧
  isFavorite (favorites_state (after (removeFavorite favorites movieId) w)) other
    = isFavorite favorites other && negb (movieId =? other).
Proof.
  rewrite addFavorite_state, removeFavorite_state. split.
  - rewrite isFavorite_app. simpl. by rewrite orb_false_r.
  - apply isFavorite_filter.
Qed.

(** X3: [removeFavorite] keeps a collection of unique ids unique;
    [addFavorite] leaves unique ids exactly when the collection had unique
    ids and none of them was the movie's. *)
Theorem X3_unique_ids_under_mutation
    (favorites : list Movie) (movie : Movie) (movieId : Z) (w : World) :
  (NoDup (ids favorites) →
     NoDup (ids (favorites_state (after (removeFavorite favorites movieId) w)))) ∧
  (NoDup (ids (favorites_state (after (addFavorite favorites movie) w))) ↔
     NoDup (ids favorites) ∧ isFavorite favorites (id movie) = false).
Proof.
  rewrite addFavorite_state, removeFavorite_state. split.
  - intros Hnd. eapply sublist_NoDup; [exact Hnd | apply ids_filter_sublist].
  - unfold ids. rewrite fmap_app. simpl. rewrite NoDup_app.
    fold (ids favorites). rewrite isFavorite_false_ids. split.
    + intros (Hnd & Hfresh & _). split; [done|].
      intros Hin. apply (Hfresh _ Hin). by apply list_elem_of_singleton.
    + intros [Hnd Hfresh]. split; [done|]. split.
      * intros x Hin Hx. apply list_elem_of_singleton in Hx as ->. done.
      * apply NoDup_singleton.
Qed.

Lemma X3_unique_ids_under_mutation_witness :
  NoDup (ids [inception; arrival]) ∧
  NoDup (ids (favorites_state
                (after (removeFavorite [inception; arrival] 27205)
                   (initial offline blank_device)))).
Proof.
  assert (NoDup (ids [inception; arrival])) as Hnd.
  { unfold ids. simpl. apply NoDup_cons. split.
    - intros Hin. apply list_elem_of_singleton in Hin. discriminate.
    - apply NoDup_singleton. }
  split; [exact Hnd|].
  apply (X3_unique_ids_under_mutation [inception; arrival] inception 27205
           (initial offline blank_device)).
  exact Hnd.
Defined.

(** X4: the Remove button of a listed favorite takes its id out of the
    collection and shortens the collection; when the ids are unique it
    takes out that entry alone. *)
Theorem X4_remove_button_removes_the_listed_entry (item : Movie) (w : World) :
  item ∈ favorites_state w →
  let w' := after (ctx ← useFavorites; FavoritesScreen.onPressRemove ctx item) w in
  isFavorite (favorites_state w') (id item) = false ∧
  (length (favorites_state w') < length (favorites_state w))%nat ∧
  (NoDup (ids (favorites_state w)) →
     S (length (favorites_state w')) = length (favorites_state w) ∧
     ∀ m, m ∈ favorites_state w' ↔ m ∈ favorites_state w ∧ m ≠ item).
Proof.
  intros Hin w'.
  assert (favorites_state w' = filter (λ m, id m ≠ id item) (favorites_state w)) as ->.
  { unfold w', after. rewrite useFavorites_bind.
    apply (removeFavorite_state (favorites_state w) (id item) w). }
  split.
  { rewrite isFavorite_filter, Z.eqb_refl. apply andb_false_r. }
  split.
  { apply (length_filter_lt _ _ item); [done | tauto]. }
  intros Hnd. by apply filter_listed_unique.
Qed.

Lemma X4_remove_button_removes_the_listed_entry_witness :
  arrival ∈ favorites_state (with_favorites [inception; arrival] (initial offline blank_device)) ∧
  isFavorite
    (favorites_state
       (after (ctx ← useFavorites; FavoritesScreen.onPressRemove ctx arrival)
          (with_favorites [inception; arrival] (initial offline blank_device))))
    (id arrival) = false.
Proof.
  assert (arrival ∈ favorites_state
            (with_favorites [inception; arrival] (initial offline blank_device))) as Hin.
  { simpl. apply elem_of_cons. right. apply list_elem_of_singleton. reflexivity. }
  split; [exact Hin|].
  apply (X4_remove_button_removes_the_listed_entry arrival _ Hin).
Defined.

(** ** The favorites store, further *)

Lemma saved_then_loaded (favorites : list Movie) (w : World) :
  writable (device w) = true →
  readable (device w) = true →
  loadFavorites (after (saveFavorites favorites) w)
    = (Normal (defined (JSON.written (Movies_to_json favorites))),
       after (saveFavorites favorites) w).
Proof.
  intros Hwrite Hread. unfold after at 1 2. rewrite saveFavorites_run, Hwrite.
  rewrite loadFavorites_run. cbn [snd device with_device slots readable].
  by rewrite Hread, lookup_insert_eq, stringify_truthy, JSON_parse_stringify.
Qed.

Lemma loadFavorites_reads_the_device (w w' : World) :
  device w' = device w → outcome loadFavorites w' = outcome loadFavorites w.
Proof.
  intros Hdev. unfold outcome. rewrite !loadFavorites_run, Hdev.
  destruct (readable (device w)); [|done].
  destruct (slots (device w) !! "@favorites") as [text|]; [|done].
  destruct (truthy (Some text)); [|done].
  by destruct (JSON.parse text).
Qed.

Lemma saveFavorites_slots (favorites : list Movie) (w : World) :
  writable (device w) = true →
  slots (device (after (saveFavorites favorites) w))
    = <["@favorites" := JSON.stringify (Movies_to_json favorites)]> (slots (device w)).
Proof. intros Hwrite. unfold after. by rewrite saveFavorites_run, Hwrite. Qed.



(** X6: a write the device refuses is absorbed: [addFavorite] and
    [removeFavorite] still complete normally and update the collection in
    memory, the device is left as it was, one error is logged, and
    [loadFavorites] keeps returning what it returned before. *)
Theorem X6_refused_write_is_absorbed
    (favorites : list Movie) (movie : Movie) (movieId : Z) (w : World) :
  writable (device w) = false →
  addFavorite favorites movie w
    = (Normal (),
       logged "Error saving favorites:" (StorageError "Failed to write")
         (with_favorites (favorites ++ [movie])%list w)) ∧
  removeFavorite favorites movieId w
    = (Normal (),
       logged "Error saving favorites:" (StorageError "Failed to write")
         (with_favorites (filter (λ m, id m ≠ movieId) favorites) w)) ∧
  outcome loadFavorites (after (addFavorite favorites movie) w) = outcome loadFavorites w ∧
  outcome loadFavorites (after (removeFavorite favorites movieId) w) = outcome loadFavorites w.
Proof.
  intros Hwrite.
  assert (addFavorite favorites movie w
          = (Normal (),
             logged "Error saving favorites:" (StorageError "Failed to write")
               (with_favorites (favorites ++ [movie])%list w))) as Ha.
  { rewrite addFavorite_run, saveFavorites_run. simpl. by rewrite Hwrite. }
  assert (removeFavorite favorites movieId w
          = (Normal (),
             logged "Error saving favorites:" (StorageError "Failed to write")
               (with_favorites (filter (λ m, id m ≠ movieId) favorites) w))) as Hr.
  { rewrite removeFavorite_run, saveFavorites_run. simpl. by rewrite Hwrite. }
  split; [exact Ha|]. split; [exact Hr|].
  unfold after. rewrite Ha, Hr.
  split; by apply loadFavorites_reads_the_device.
Qed.

Lemma X6_refused_write_is_absorbed_witness :
  favorites_state
    (after (addFavorite [inception] arrival)
       (initial offline (full_device "[]"))) = [inception; arrival] ∧
  outcome loadFavorites
    (after (addFavorite [inception] arrival) (initial offline (full_device "[]")))
    = Normal empty_array.
Proof.
  destruct (X6_refused_write_is_absorbed [inception] arrival 0
              (initial offline (full_device "[]")) eq_refl) as (Hadd & _ & Hload & _).
  split.
  - unfold after. rewrite Hadd. reflexivity.
  - rewrite Hload. reflexivity.
Defined.



(** X8: [loadFavorites] only reads: it never throws and leaves the world
    as it was, up to one logged error; in particular the device, the
    collection in memory and the search results are untouched. *)
Theorem X8_load_only_reads (w : World) :
  (∃ v, outcome loadFavorites w = Normal v) ∧
  (after loadFavorites w = w ∨
   ∃ e, after loadFavorites w = logged "Error loading favorites:" e w) ∧
  device (after loadFavorites w) = device w ∧
  favorites_state (after loadFavorites w) = favorites_state w ∧
  results_state (after loadFavorites w) = results_state w.
Proof.
  unfold outcome, after. rewrite loadFavorites_run.
  destruct (readable (device w)).
  2: { split; [by eexists|]. split; [right; by eexists | done]. }
  destruct (slots (device w) !! "@favorites") as [text|].
  2: { split; [by eexists|]. split; [by left | done]. }
  destruct (truthy (Some text)).
  2: { split; [by eexists|]. split; [by left | done]. }
  destruct (JSON.parse text).
  - split; [by eexists|]. split; [by left | done].
  - split; [by eexists|]. split; [right; by eexists | done].
Qed.

(** ** The catalog client, further *)

(** A fetch completes normally and leaves behind the world it found, up to
    one logged error. *)
Lemma fetchMovies_split (endpoint : string) (w : World) :
  ∃ v w', fetchMovies endpoint w = (Normal v, w') ∧
          (w' = w ∨ ∃ e, w' = logged "Error fetching movies:" e w).
Proof.
  rewrite fetchMovies_run.
  destruct (network w (movies_url endpoint)) as [d|e].
  - destruct (dot_results d); do 2 eexists; split; eauto.
  - do 2 eexists; split; eauto.
Qed.

Lemma fetchMovieRecommendations_split (movieId : Z) (w : World) :
  ∃ v w', fetchMovieRecommendations movieId w = (Normal v, w') ∧
          (w' = w ∨ ∃ e, w' = logged "Error fetching recommendations:" e w).
Proof.
  rewrite fetchMovieRecommendations_run.
  destruct (network w (recommendations_url movieId)) as [d|e].
  - destruct (dot_results d); do 2 eexists; split; eauto.
  - do 2 eexists; split; eauto.
Qed.

Lemma fetchMovies_same_answer (endpoint : string) (w w' : World) :
  network w' (movies_url endpoint) = network w (movies_url endpoint) →
  outcome (fetchMovies endpoint) w' = outcome (fetchMovies endpoint) w.
Proof.
  intros Hnet. unfold outcome. rewrite !fetchMovies_run, Hnet.
  destruct (network w (movies_url endpoint)) as [d|e]; [|done].
  by destruct (dot_results d).
Qed.

Lemma fetchMovieRecommendations_same_answer (movieId : Z) (w w' : World) :
  network w' (recommendations_url movieId) = network w (recommendations_url movieId) →
  outcome (fetchMovieRecommendations movieId) w'
    = outcome (fetchMovieRecommendations movieId) w.
Proof.
  intros Hnet. unfold outcome. rewrite !fetchMovieRecommendations_run, Hnet.
  destruct (network w (recommendations_url movieId)) as [d|e]; [|done].
  by destruct (dot_results d).
Qed.

(** X9: the catalog wrappers only read: a fetch leaves the world as it
    was, up to one logged error, and what it returns is fixed by what the
    network answers for its own URL. *)
Theorem X9_catalog_fetch_only_reads
    (endpoint : string) (movieId : Z) (w : World) :
  (after (fetchMovies endpoint) w = w ∨
   ∃ e, after (fetchMovies endpoint) w = logged "Error fetching movies:" e w) ∧
  (after (fetchMovieRecommendations movieId) w = w ∨
   ∃ e, after (fetchMovieRecommendations movieId) w
          = logged "Error fetching recommendations:" e w) ∧
  (∀ w', network w' (movies_url endpoint) = network w (movies_url endpoint) →
         outcome (fetchMovies endpoint) w' = outcome (fetchMovies endpoint) w) ∧
  (∀ w', network w' (recommendations_url movieId) = network w (recommendations_url movieId) →
         outcome (fetchMovieRecommendations movieId) w'
           = outcome (fetchMovieRecommendations movieId) w).
Proof.
  split; [|split; [|split]].
  - destruct (fetchMovies_split endpoint w) as (v & w' & Hrun & Hw').
    unfold after. by rewrite Hrun.
  - destruct (fetchMovieRecommendations_split movieId w) as (v & w' & Hrun & Hw').
    unfold after. by rewrite Hrun.
  - intros w'. apply fetchMovies_same_answer.
  - intros w'. apply fetchMovieRecommendations_same_answer.
Qed.

Lemma X9_catalog_fetch_only_reads_witness :
  outcome (fetchMovies "popular")
    (with_favorites [arrival] (initial flaky (full_device "[]")))
  = outcome (fetchMovies "popular") (initial flaky blank_device).
Proof.
  apply (X9_catalog_fetch_only_reads "popular" 0 (initial flaky blank_device)).
  reflexivity.
Defined.

Lemma dot_results_absent (j : json) :
  j ≠ JNull → field j "results" = undefined →
  dot_results (defined j) = Normal undefined.
Proof. intros Hnull Hfield. destruct j; simpl in *; congruence. Qed.

(** X10: the fail-soft catch covers throws only.  When the response is
    not null and has no [results] of its own, the two fetches return
    [undefined], not an empty array, and [handleSearch] stores [undefined]
    as the result list; nothing is logged. *)
Theorem X10_response_without_results_gives_undefined
    (endpoint : string) (movieId : Z) (query : string) (j : json) (w : World) :
  j ≠ JNull →
  field j "results" = undefined →
  (network w (movies_url endpoint) = Normal (defined j) →
     fetchMovies endpoint w = (Normal undefined, w)) ∧
  (network w (recommendations_url movieId) = Normal (defined j) →
     fetchMovieRecommendations movieId w = (Normal undefined, w)) ∧
  (network w (search_url query) = Normal (defined j) →
     handleSearch query w = (Normal (), with_results undefined w)).
Proof.
  intros Hnull Hfield. pose proof (dot_results_absent j Hnull Hfield) as Hdot.
  split; [|split]; intros Hnet.
  - by rewrite fetchMovies_run, Hnet, Hdot.
  - by rewrite fetchMovieRecommendations_run, Hnet, Hdot.
  - by rewrite handleSearch_run, Hnet, Hdot.
Qed.

Lemma X10_response_without_results_gives_undefined_witness :
  outcome (fetchMovies "popular") (initial bare blank_device) = Normal undefined ∧
  results_state (after (handleSearch "inception") (initial bare blank_device)) = undefined.
Proof.
  assert (JObj [("status_message", JStr "Invalid API key")] ≠ JNull) as Hnull by discriminate.
  destruct (X10_response_without_results_gives_undefined "popular" 27205 "inception"
              (JObj [("status_message", JStr "Invalid API key")])
              (initial bare blank_device) Hnull eq_refl) as (Hmovies & _ & Hsearch).
  unfold outcome, after. rewrite (Hmovies eq_refl), (Hsearch eq_refl). split; reflexivity.
Defined.

(** X11: a search never throws and never touches the favorites or the
    device; when its request succeeds the result list becomes the
    response's results, whatever it held before, and nothing is logged. *)
Theorem X11_search_replaces_results (query : string) (w : World) :
  outcome (handleSearch query) w = Normal () ∧
  device (after (handleSearch query) w) = device w ∧
  favorites_state (after (handleSearch query) w) = favorites_state w ∧
  (∀ d r, network w (search_url query) = Normal d → dot_results d = Normal r →
          handleSearch query w = (Normal (), with_results r w)).
Proof.
  unfold outcome, after. rewrite handleSearch_run.
  destruct (network w (search_url query)) as [d|e].
  - destruct (dot_results d) as [r|e] eqn:Hdot.
    + repeat split. intros d' r' [= <-] Hr. rewrite Hdot in Hr. by injection Hr as ->.
    + repeat split. intros d' r' [= <-] Hr. congruence.
  - repeat split. intros d r Hd. discriminate.
Qed.

Lemma X11_search_replaces_results_witness :
  results_state
    (after (handleSearch "inception")
       (with_results (defined (Movies_to_json [arrival])) (initial flaky blank_device)))
  = defined (Movies_to_json [inception]).
Proof.
  destruct (X11_search_replaces_results "inception"
              (with_results (defined (Movies_to_json [arrival])) (initial flaky blank_device)))
    as (_ & _ & _ & Hsuccess).
  unfold after.
  rewrite (Hsuccess (catalog_page [inception]) (defined (Movies_to_json [inception]))
             eq_refl eq_refl).
  reflexivity.
Defined.

(** ** The screens *)

Lemma network_after_fetchMovies (endpoint : string) (w : World) :
  network (after (fetchMovies endpoint) w) = network w ∧
  device (after (fetchMovies endpoint) w) = device w ∧
  favorites_state (after (fetchMovies endpoint) w) = favorites_state w ∧
  results_state (after (fetchMovies endpoint) w) = results_state w.
Proof.
  destruct (fetchMovies_split endpoint w) as (v & w' & Hrun & [-> | (e & ->)]);
    unfold after; by rewrite Hrun.
Qed.

Lemma fetchMovies_then {A} (endpoint : string) (k : jsval → M A) (w : World) :
  ∃ v, outcome (fetchMovies endpoint) w = Normal v ∧
       (fetchMovies endpoint ≫= k) w = k v (after (fetchMovies endpoint) w).
Proof.
  destruct (fetchMovies_split endpoint w) as (v & w' & Hrun & _).
  exists v. unfold outcome, after, mbind, M_bind. by rewrite Hrun.
Qed.

Lemma fetchMovies_outcome_throws (endpoint : string) (e : exn) (v : jsval) (w : World) :
  request_throws w (movies_url endpoint) e →
  Normal v = outcome (fetchMovies endpoint) w → v = empty_array.
Proof.
  unfold outcome. rewrite fetchMovies_run.
  intros [-> | (d & -> & ->)]; simpl; congruence.
Qed.

Lemma fetchMovies_outcome_answers (endpoint : string) (d r v : jsval) (w : World) :
  network w (movies_url endpoint) = Normal d → dot_results d = Normal r →
  Normal v = outcome (fetchMovies endpoint) w → v = r.
Proof.
  unfold outcome. rewrite fetchMovies_run.
  intros -> ->. simpl. congruence.
Qed.



Lemma bind_run {A B} (m : M A) (k : A → M B) (a : A) (w w' : World) :
  m w = (Normal a, w') → (m ≫= k) w = k a w'.
Proof. intros H. unfold mbind, M_bind. by rewrite H. Qed.

Lemma run_pair {A} (m : M A) (a : A) (w : World) :
  outcome m w = Normal a → m w = (Normal a, after m w).
Proof. unfold outcome, after. destruct (m w) as [c w']. simpl. by intros ->. Qed.

Lemma open_run (movie : Movie) (w : World) :
  ∃ recs w',
    DetailScreen.open movie w
      = (Normal {| DetailScreen.isInFavorites := isFavorite (favorites_state w) (id movie);
                   DetailScreen.recommendations := recs |}, w') ∧
    Normal recs = outcome (fetchMovieRecommendations (id movie)) w ∧
    (w' = w ∨ ∃ e, w' = logged "Error fetching recommendations:" e w).
Proof.
  destruct (fetchMovieRecommendations_split (id movie) w) as (recs & w' & Hrun & Hw').
  exists recs, w'. split; [|split; [|done]].
  - unfold DetailScreen.open. rewrite useFavorites_bind.
    unfold DetailScreen.effect, DetailScreen.fetchRecommendations.
    by rewrite (bind_run _ _ _ _ _ Hrun).
  - unfold outcome. by rewrite Hrun.
Qed.

Lemma press_run (movie : Movie) (s : DetailScreen.state) (w : World) :
  DetailScreen.press movie s w =
    if DetailScreen.isInFavorites s
    then (Normal (DetailScreen.setIsInFavorites false s),
          after (removeFavorite (favorites_state w) (id movie)) w)
    else (Normal (DetailScreen.setIsInFavorites true s),
          after (addFavorite (favorites_state w) movie) w).
Proof.
  unfold DetailScreen.press. rewrite useFavorites_bind.
  unfold DetailScreen.toggleFavorite, FavoritesProvider. cbn [Context.addFavorite Context.removeFavorite].
  destruct (DetailScreen.isInFavorites s).
  - by rewrite (bind_run _ _ _ _ _ (run_pair _ _ _ (removeFavorite_outcome _ _ w))).
  - by rewrite (bind_run _ _ _ _ _ (run_pair _ _ _ (addFavorite_outcome _ _ w))).
Qed.

Lemma press_when_off (movie : Movie) (s : DetailScreen.state) (w : World) :
  DetailScreen.isInFavorites s = false →
  DetailScreen.press movie s w
    = (Normal (DetailScreen.setIsInFavorites true s),
       after (addFavorite (favorites_state w) movie) w).
Proof. intros Hoff. by rewrite press_run, Hoff. Qed.

(** X13: when the button's flag agrees with the collection, a press flips
    the movie's favorite status and the flag with it, so they agree again;
    the recommendations stay. *)
Theorem X13_press_keeps_flag_in_step
    (movie : Movie) (s : DetailScreen.state) (w : World) :
  DetailScreen.isInFavorites s = isFavorite (favorites_state w) (id movie) →
  ∃ s', outcome (DetailScreen.press movie s) w = Normal s' ∧
        DetailScreen.isInFavorites s' = negb (DetailScreen.isInFavorites s) ∧
        isFavorite (favorites_state (after (DetailScreen.press movie s) w)) (id movie)
          = DetailScreen.isInFavorites s' ∧
        DetailScreen.recommendations s' = DetailScreen.recommendations s.
Proof.
  intros Hsync. unfold outcome, after. rewrite press_run.
  destruct (DetailScreen.isInFavorites s) eqn:Hflag; eexists; (split; [reflexivity|]); simpl.
  - split; [done|]. split; [|done].
    rewrite removeFavorite_state, isFavorite_filter, Z.eqb_refl. apply andb_false_r.
  - split; [done|]. split; [|done].
    rewrite addFavorite_state, isFavorite_app. simpl. rewrite Z.eqb_refl. apply orb_true_r.
Qed.

Lemma X13_press_keeps_flag_in_step_witness :
  isFavorite
    (favorites_state
       (after (DetailScreen.press arrival DetailScreen.initial_state)
          (initial offline blank_device)))
    (id arrival) = true.
Proof.
  destruct (X13_press_keeps_flag_in_step arrival DetailScreen.initial_state
              (initial offline blank_device) eq_refl) as (s' & Hrun & Hflip & Hstep & _).
  rewrite Hstep, Hflip. reflexivity.
Defined.

(** X14: when the button's flag agrees with the collection, a press keeps
    the ids of the collection unique. *)
Theorem X14_press_in_step_keeps_ids_unique
    (movie : Movie) (s : DetailScreen.state) (w : World) :
  DetailScreen.isInFavorites s = isFavorite (favorites_state w) (id movie) →
  NoDup (ids (favorites_state w)) →
  NoDup (ids (favorites_state (after (DetailScreen.press movie s) w))).
Proof.
  intros Hsync Hnd. unfold after. rewrite press_run.
  destruct (DetailScreen.isInFavorites s); cbn [snd].
  - rewrite removeFavorite_state.
    eapply sublist_NoDup; [exact Hnd | apply ids_filter_sublist].
  - rewrite addFavorite_state. unfold ids. rewrite fmap_app. simpl.
    apply NoDup_app. split; [exact Hnd|]. split; [|apply NoDup_singleton].
    intros x Hin Hx. apply list_elem_of_singleton in Hx as ->.
    symmetry in Hsync. by apply isFavorite_false_ids in Hsync.
Qed.

Lemma X14_press_in_step_keeps_ids_unique_witness :
  NoDup (ids (favorites_state
                (after (DetailScreen.press arrival DetailScreen.initial_state)
                   (with_favorites [inception] (initial offline blank_device))))).
Proof.
  apply (X14_press_in_step_keeps_ids_unique arrival DetailScreen.initial_state
           (with_favorites [inception] (initial offline blank_device))).
  - reflexivity.
  - unfold ids. simpl. apply NoDup_singleton.
Defined.

(** X15: opening the detail screen of a movie sets the flag to the movie's
    favorite status in the collection of that moment, loads the
    recommendations [fetchMovieRecommendations] returns for the movie's
    id, never throws, and leaves the collection and the device as they
    were. *)
Theorem X15_open_sets_flag_and_recommendations (movie : Movie) (w : World) :
  ∃ s, outcome (DetailScreen.open movie) w = Normal s ∧
       DetailScreen.isInFavorites s = isFavorite (favorites_state w) (id movie) ∧
       Normal (DetailScreen.recommendations s)
         = outcome (fetchMovieRecommendations (id movie)) w ∧
       favorites_state (after (DetailScreen.open movie) w) = favorites_state w ∧
       device (after (DetailScreen.open movie) w) = device w.
Proof.
  destruct (open_run movie w) as (recs & w' & Hrun & Hrecs & Hw').
  unfold outcome, after. rewrite Hrun. eexists. split; [reflexivity|]. simpl.
  split; [done|]. split; [done|].
  by destruct Hw' as [-> | (e & ->)].
Qed.

(** X16: the flag belongs to one screen instance.  With two detail screens
    of the same movie open while the movie is no favorite (one in the home
    stack, one in the search stack), pressing the button on each adds the
    movie twice. *)
Theorem X16_two_open_screens_add_twice (movie : Movie) (w : World) :
  isFavorite (favorites_state w) (id movie) = false →
  let both :=
    a ← DetailScreen.open movie;
    b ← DetailScreen.open movie;
    b' ← DetailScreen.press movie b;
    a' ← DetailScreen.press movie a;
    mret (a', b') in
  ∃ a' b', outcome both w = Normal (a', b') ∧
           DetailScreen.isInFavorites a' = true ∧
           DetailScreen.isInFavorites b' = true ∧
           favorites_state (after both w) = (favorites_state w ++ [movie; movie])%list.
Proof.
  intros Hfresh both. unfold both, outcome, after.
  destruct (open_run movie w) as (r1 & w1 & Hrun1 & _ & Hw1).
  rewrite (bind_run _ _ _ _ _ Hrun1).
  assert (favorites_state w1 = favorites_state w) as Hf1
    by (by destruct Hw1 as [-> | (e & ->)]).
  destruct (open_run movie w1) as (r2 & w2 & Hrun2 & _ & Hw2).
  rewrite (bind_run _ _ _ _ _ Hrun2).
  assert (favorites_state w2 = favorites_state w) as Hf2
    by (rewrite <- Hf1; by destruct Hw2 as [-> | (e & ->)]).
  rewrite Hf1, !Hfresh.
  rewrite (bind_run _ _ _ _ _
             (press_when_off movie
                {| DetailScreen.isInFavorites := false; DetailScreen.recommendations := r2 |}
                w2 eq_refl)).
  rewrite (bind_run _ _ _ _ _
             (press_when_off movie
                {| DetailScreen.isInFavorites := false; DetailScreen.recommendations := r1 |}
                _ eq_refl)).
  do 2 eexists. split; [reflexivity|]. simpl.
  split; [done|]. split; [done|].
  rewrite !addFavorite_state, Hf2. by rewrite <- (assoc_L (++)%list).
Qed.

Lemma X16_two_open_screens_add_twice_witness :
  favorites_state
    (after (a ← DetailScreen.open arrival;
            b ← DetailScreen.open arrival;
            b' ← DetailScreen.press arrival b;
            a' ← DetailScreen.press arrival a;
            mret (a', b'))
       (with_favorites [inception] (initial offline blank_device)))
  = [inception; arrival; arrival].
Proof.
  destruct (X16_two_open_screens_add_twice arrival
              (with_favorites [inception] (initial offline blank_device)) eq_refl)
    as (a' & b' & _ & _ & _ & Hstate).
  exact Hstate.
Defined.

(** X17: two movies get the same list key exactly when they have the same
    id, so the keys of a collection are unique exactly when its ids are. *)
Theorem X17_list_keys_follow_ids (a b : Movie) (favorites : list Movie) :
  (keyExtractor a = keyExtractor b ↔ id a = id b) ∧
  (NoDup (keyExtractor <$> favorites) ↔ NoDup (ids favorites)).
Proof.
  assert (∀ x y, JSON.Z_to_string x = JSON.Z_to_string y → x = y) as Hinj.
  { intros x y Heq.
    destruct (take_signed_digits false x "" I) as (u & neg & r & Hsign & Hdigits & _ & Hx).
    destruct (take_signed_digits false y "" I) as (u' & neg' & r' & Hsign' & Hdigits' & _ & Hy).
    rewrite append_nil_r in Hsign, Hsign'. rewrite Heq in Hsign.
    rewrite Hsign in Hsign'. injection Hsign' as <- <-.
    rewrite Hdigits in Hdigits'. injection Hdigits' as <-.
    congruence. }
  split.
  - unfold keyExtractor. split; [apply Hinj | by intros ->].
  - unfold ids. induction favorites as [|m l IH]; [split; intros; constructor|].
    rewrite !fmap_cons, !NoDup_cons, IH.
    assert (keyExtractor m ∈ keyExtractor <$> l ↔ id m ∈ id <$> l) as ->; [|done].
    rewrite !list_elem_of_fmap. split.
    + intros (m' & Hkey & Hin). exists m'. split; [by apply Hinj | done].
    + intros (m' & Hid & Hin). exists m'. split; [|done].
      unfold keyExtractor. by rewrite Hid.
Qed.
